(** * play-log-file.py: replay of a CAN log in CSV format

    A shallow embedding of [scripts/play-log-file.py] and the properties
    of its read-parse-wait-send loop.

    Conventions of the model
    - A row of [csv.DictReader] is a finite map from column names to
      cells, a cell being a text or Python's [None] (the [restval] of a
      row shorter than the header).
    - Python's [int] is [Z]; the floats of the script ([ts], [start_ts],
      the readings of [time.time()]) are exact rationals [Q], in seconds.
    - Texts are byte strings; the built-ins [int(s)], [int(s, 16)],
      [str.lower] and the format specifications are modelled on their
      ASCII behaviour.
    - The outside world of one iteration (how much wall-clock time passes
      between two calls, whether [bus.send] raises) is an explicit
      parameter [Env] of the iteration. In [Replay] the timer and the
      console do not fail; [Faults] is the same loop in a world where
      [time.sleep] and the two calls of [print] can raise as well, the
      second of them, in the handler, ending the run. The range of a
      float is not modelled. *)

From Stdlib Require Import ZArith QArith Lqa Lia Ascii String List Bool.
From stdpp Require Import base gmap strings list sorting.

Local Open Scope string_scope.
Local Open Scope Z_scope.

(** ** Python built-ins used by the script *)

Module Py.

(** Exceptions the body of the loop can raise, all subclasses of
    [Exception]. *)
Inductive exn : Type :=
| KeyError (key : string)                 (* row[key], no such column *)
| TypeError (what : string)               (* int(None), None - float *)
| AttributeError (what : string)          (* None.lower() *)
| ValueError_int (base : Z) (lit : string)(* invalid literal for int() *)
| ValueError_bytes                        (* bytes must be in range(0, 256) *)
| CanError (msg : string)                 (* raised by bus.send *)
| OverflowError (msg : string)            (* time.sleep, wait too long *)
| OSError (msg : string).                 (* time.sleep, print *)

(** [Py_ISSPACE]: the blanks [int] strips on both sides. *)
Definition isspace (c : ascii) : bool :=
  let n := N_of_ascii c in
  ((9 <=? n) && (n <=? 13) || (n =? 32))%N.

(** [_PyLong_DigitValue]: value of a character as a digit, 37 when it is
    none in any base. *)
Definition digit_value (c : ascii) : N :=
  let n := N_of_ascii c in
  (if (48 <=? n) && (n <=? 57) then n - 48
   else if (97 <=? n) && (n <=? 122) then n - 87
   else if (65 <=? n) && (n <=? 90) then n - 55
   else 37)%N.

Definition is_underscore (c : ascii) : bool := (N_of_ascii c =? 95)%N.

Fixpoint lstrip (s : string) : string :=
  match s with
  | String c s' => if isspace c then lstrip s' else s
  | EmptyString => s
  end.

(** The digit loop of [PyLong_FromString]: digits of the base, with single
    underscores between them. Returns the value read, whether a digit was
    seen, and the rest of the text; [None] on a doubled or trailing
    underscore. *)
Fixpoint scan_digits (base : N) (prev_us seen : bool) (acc : N) (s : string)
  : option (N * bool * string) :=
  match s with
  | String c s' =>
      if is_underscore c then
        if prev_us then None else scan_digits base true seen acc s'
      else if (digit_value c <? base)%N then
        scan_digits base false true (acc * base + digit_value c)%N s'
      else if prev_us then None else Some (acc, seen, s)
  | EmptyString => if prev_us then None else Some (acc, seen, s)
  end.

(** After the sign, base 16 accepts [0x] or [0X] and one underscore. *)
Definition skip_prefix (base : N) (s : string) : string :=
  match s with
  | String "0" (String x s') =>
      if (base =? 16)%N && (Ascii.eqb x "x" || Ascii.eqb x "X") then
        match s' with
        | String "_" s'' => s''
        | _ => s'
        end
      else s
  | _ => s
  end.

Definition unsigned_literal (base : N) (s : string) : option N :=
  let s := skip_prefix base s in
  match s with
  | String "_" _ => None
  | _ =>
      match scan_digits base false false 0%N s with
      | Some (v, true, rest) =>
          match lstrip rest with
          | EmptyString => Some v
          | _ => None
          end
      | _ => None
      end
  end.

(** [int(s, base)] on a text: blanks, an optional sign, the literal,
    blanks. *)
Definition parse_int (base : N) (s : string) : option Z :=
  match lstrip s with
  | String "+" s' => Z.of_N <$> unsigned_literal base s'
  | String "-" s' => Z.opp <$> (Z.of_N <$> unsigned_literal base s')
  | s' => Z.of_N <$> unsigned_literal base s'
  end.

(** [int(x)] and [int(x, 16)] where [x] is a cell: [None] is a
    [TypeError], a text that is no literal a [ValueError]. *)
Definition int (base : N) (x : option string) : exn + Z :=
  match x with
  | None => inl (TypeError "int")
  | Some s =>
      match parse_int base s with
      | Some v => inr v
      | None => inl (ValueError_int (Z.of_N base) s)
      end
  end.

(** [str.lower] on ASCII. *)
Definition lower_char (c : ascii) : ascii :=
  let n := N_of_ascii c in
  if ((65 <=? n) && (n <=? 90))%N then ascii_of_N (n + 32) else c.

Fixpoint lower (s : string) : string :=
  match s with
  | String c s' => String (lower_char c) (lower s')
  | EmptyString => EmptyString
  end.

(** Truth value of a cell: [None] and the empty text are false. *)
Definition truthy (x : option string) : bool :=
  match x with
  | None | Some EmptyString => false
  | Some _ => true
  end.

(** Digits of [n] in [base], most significant first, upper case above 9:
    what the presentation types [d] and [X] print for a natural number.
    [fuel + 1] digits at most are produced. *)
Definition digit_char (d : N) : ascii :=
  (if d <? 10 then ascii_of_N (48 + d) else ascii_of_N (55 + d))%N.

Fixpoint digits_of (fuel : nat) (base n : N) (acc : string) : string :=
  let acc' := String (digit_char (n mod base)) acc in
  match fuel with
  | O => acc'
  | S fuel' =>
      if (n / base =? 0)%N then acc' else digits_of fuel' base (n / base) acc'
  end.

Definition to_digits (base n : N) : string :=
  digits_of (N.to_nat (N.log2 n)) base n "".

Fixpoint zeros (k : nat) : string :=
  match k with
  | O => ""
  | S k' => String "0" (zeros k')
  end.

(** Zero fill on the left up to [width] characters. *)
Definition zfill (width : nat) (s : string) : string :=
  zeros (width - String.length s) ++ s.

Definition sign_of (z : Z) : string := if z <? 0 then "-" else "".

(** [str(z)], also [f"{z}"]. *)
Definition str_int (z : Z) : string :=
  sign_of z ++ to_digits 10 (Z.abs_N z).

(** [f"{z:X}"]. *)
Definition format_X (z : Z) : string :=
  sign_of z ++ to_digits 16 (Z.abs_N z).

(** [f"{z:02X}"]: the zeros go between the sign and the digits, and the
    sign counts in the width. *)
Definition format_02X (z : Z) : string :=
  sign_of z ++
  zfill (2 - String.length (sign_of z)) (to_digits 16 (Z.abs_N z)).

(** Nearest natural number to [a / d], ties to even. *)
Definition round_half_even (a d : N) : N :=
  (let q := a / d in
   let r := a mod d in
   if 2 * r <? d then q
   else if d <? 2 * r then q + 1
   else if N.even q then q else q + 1)%N.

(** [f"{x:.6f}"]: sign, integer part, point, six decimals, correctly
    rounded. *)
Definition format_6f (x : Q) : string :=
  let m := round_half_even (Z.abs_N (Qnum x) * 1000000) (Npos (Qden x)) in
  sign_of (Qnum x) ++ to_digits 10 (m / 1000000) ++ "." ++
  zfill 6 (to_digits 10 (m mod 1000000)).

(** [' '.join(l)]. *)
Fixpoint join (sep : string) (l : list string) : string :=
  match l with
  | [] => ""
  | [x] => x
  | x :: l' => x ++ sep ++ join sep l'
  end.

(** [bytes(l)] for a list of integers. *)
Fixpoint bytes (l : list Z) : exn + list Byte.byte :=
  match l with
  | [] => inr []
  | z :: l' =>
      match (if 0 <=? z then Byte.of_N (Z.to_N z) else None) with
      | None => inl ValueError_bytes
      | Some b =>
          match bytes l' with
          | inl e => inl e
          | inr bs => inr (b :: bs)
          end
      end
  end.

(** [x > 0] on the rationals. *)
Definition Qpositive (x : Q) : bool := negb (Qle_bool x 0).

(** A text of ASCII characters only. On such a text [parse_int] is the
    parser of [int]; outside, [int] also reads the decimal digits and the
    blanks of other scripts. *)
Definition ascii_text (s : string) : Prop :=
  Forall (fun c => (N_of_ascii c < 128)%N) (list_ascii_of_string s).

End Py.

(** ** The script *)

Module Replay.
Import Py.

(** A row as [csv.DictReader] yields it. *)
Abbreviation Row := (gmap string (option string)).

(** [can.Message(arbitration_id=.., data=.., is_extended_id=..)]. *)
Record Message : Type := {
  arbitration_id : Z;
  data : list Byte.byte;
  is_extended_id : bool
}.

(** What [print] is called with: the rendered confirmation line, or the
    two objects that follow the text "Skip line due to parse error:". *)
Inductive Output : Type :=
| SentLine (line : string)
| SkipLine (e : exn) (row : Row).

(** Observable events, oldest first in a trace. *)
Inductive Event : Type :=
| Slept (seconds : Q)             (* time.sleep(seconds) was called *)
| Sent (at_time : Q) (m : Message)(* bus.send(m) returned, at that time *)
| Printed (o : Output).

(** The outside world during one iteration: the wall-clock time that
    passes before each call that observes or spends time, and the outcome
    of [bus.send]. *)
Record Env : Type := {
  before_start : Q;   (* until start_time = time.time() *)
  before_now : Q;     (* from the previous call until now = time.time() *)
  oversleep : Q;      (* time.sleep(w) returns after w + oversleep *)
  before_send : Q;    (* from the previous call until bus.send returns *)
  send_raises : option exn
}.

(** The module-level variables [start_ts] and [start_time], the wall
    clock, and the trace of events. *)
Record State : Type := {
  start_ts : option Q;
  start_time : option Q;
  clock : Q;
  trace : list Event
}.

Definition initial (t0 : Q) : State :=
  {| start_ts := None; start_time := None; clock := t0; trace := [] |}.

(** *** The names a row binds: lines 22 to 31 *)

Record Fields : Type := {
  ts : Q;
  canid : Z;
  dlc : Z;
  is_extended : bool;
  data_bytes : list Z
}.

(** [row[key]]. *)
Definition getitem (row : Row) (key : string) : exn + option string :=
  match row !! key with
  | Some cell => inr cell
  | None => inl (KeyError key)
  end.

(** Sequencing of steps that may raise. *)
Definition ebind {A B : Type} (c : exn + A) (k : A -> exn + B) : exn + B :=
  match c with
  | inl e => inl e
  | inr a => k a
  end.

Notation "'try' x <- c ; k" := (ebind c (fun x => k))
  (at level 10, x name, c at level 100, k at level 200).

(** [x.lower()] on a cell. *)
Definition cell_lower (x : option string) : exn + string :=
  match x with
  | Some s => inr (lower s)
  | None => inl (AttributeError "lower")
  end.

(** [for i in range(1, dlc+1)], entered at [i] with [n] rounds to go. *)
Fixpoint collect (row : Row) (i : Z) (n : nat) (acc : list Z) : exn + list Z :=
  match n with
  | O => inr acc
  | S n' =>
      let key := "D" ++ str_int i in
      try cell <- getitem row key;
      if truthy cell then
        try b <- int 16 cell;
        collect row (i + 1) n' (acc ++ [b])
      else collect row (i + 1) n' acc
  end.

Definition parse_row (row : Row) : exn + Fields :=
  try c_ts <- getitem row "Time Stamp";
  try us <- int 10 c_ts;
  let ts := (inject_Z us / 1000000)%Q in
  try c_id <- getitem row "ID";
  try canid <- int 16 c_id;
  try c_len <- getitem row "LEN";
  try dlc <- int 10 c_len;
  try c_ext <- getitem row "Extended";
  try ext <- cell_lower c_ext;
  let is_extended := String.eqb ext "true" in
  try data_bytes <- collect row 1 (Z.to_nat dlc) [];
  inr {| ts := ts; canid := canid; dlc := dlc;
         is_extended := is_extended; data_bytes := data_bytes |}.

(** *** Effects: state and exceptions *)

Definition M (A : Type) : Type := State -> State * (exn + A).

Definition ret {A : Type} (a : A) : M A := fun st => (st, inr a).

Definition raise {A : Type} (e : exn) : M A := fun st => (st, inl e).

Definition bind {A B : Type} (c : M A) (k : A -> M B) : M B :=
  fun st =>
    match c st with
    | (st', inr a) => k a st'
    | (st', inl e) => (st', inl e)
    end.

Notation "x <- c ;; k" := (bind c (fun x => k))
  (at level 100, c at next level, right associativity).
Notation "c ;; k" := (bind c (fun _ => k))
  (at level 100, right associativity).

Definition lift {A : Type} (c : exn + A) : M A := fun st => (st, c).

Definition get : M State := fun st => (st, inr st).

Definition set_start_ts (x : Q) : M unit := fun st =>
  ({| start_ts := Some x; start_time := start_time st;
      clock := clock st; trace := trace st |}, inr tt).

Definition set_start_time (x : Q) : M unit := fun st =>
  ({| start_ts := start_ts st; start_time := Some x;
      clock := clock st; trace := trace st |}, inr tt).

Definition emit (ev : Event) (c : Q) : M unit := fun st =>
  ({| start_ts := start_ts st; start_time := start_time st;
      clock := c; trace := trace st ++ [ev] |}, inr tt).

Definition advance (d : Q) : M Q := fun st =>
  let c := (clock st + d)%Q in
  ({| start_ts := start_ts st; start_time := start_time st;
      clock := c; trace := trace st |}, inr c).

(** [time.time()], called when [lag] has passed. *)
Definition time_time (lag : Q) : M Q := advance lag.

(** [time.sleep(w)]. *)
Definition time_sleep (w over : Q) : M unit := fun st =>
  emit (Slept w) (clock st + w + over)%Q st.

(** [bus.send(m)]. *)
Definition bus_send (lag : Q) (failure : option exn) (m : Message) : M unit :=
  c <- advance lag ;;
  match failure with
  | Some e => raise e
  | None => fun st => emit (Sent c m) c st
  end.

Definition print (o : Output) : M unit := fun st =>
  emit (Printed o) (clock st) st.

(** A float operand that may be [None]. *)
Definition operand (x : option Q) : M Q :=
  match x with
  | Some q => ret q
  | None => raise (TypeError "-")
  end.

Definition wait_time_of (ts start_ts now start_time : Q) : Q :=
  ((ts - start_ts) - (now - start_time))%Q.

Definition sent_line (f : Fields) : string :=
  "Sent t=" ++ format_6f (ts f) ++ "s ID=0x" ++ format_X (canid f) ++
  " DLC=" ++ str_int (dlc f) ++
  " Data=" ++ join " " (map format_02X (data_bytes f)).

(** *** The body of [try], lines 22 to 45 *)
Definition body (row : Row) (env : Env) : M unit :=
  f <- lift (parse_row row) ;;
  st <- get ;;
  match start_ts st with
  | None =>
      set_start_ts (ts f) ;;
      t <- time_time (before_start env) ;;
      set_start_time t
  | Some _ => ret tt
  end ;;
  now <- time_time (before_now env) ;;
  st <- get ;;
  t0 <- operand (start_time st) ;;
  let elapsed := (now - t0)%Q in
  s0 <- operand (start_ts st) ;;
  let wait_time := ((ts f - s0) - elapsed)%Q in
  (if Qpositive wait_time
   then time_sleep wait_time (oversleep env)
   else ret tt) ;;
  payload <- lift (bytes (data_bytes f)) ;;
  let msg := {| arbitration_id := canid f; data := payload;
                is_extended_id := is_extended f |} in
  bus_send (before_send env) (send_raises env) msg ;;
  print (SentLine (sent_line f)).

(** One round of [for row in reader]: the body, and the handler of
    [except Exception as e]. *)
Definition process_row (row : Row) (env : Env) (st : State) : State :=
  match body row env st with
  | (st', inr _) => st'
  | (st', inl e) => fst (print (SkipLine e row) st')
  end.

(** The loop over the rows of the file, each met by the world with its
    own [Env]. *)
Fixpoint run (rows : list (Row * Env)) (st : State) : State :=
  match rows with
  | [] => st
  | (row, env) :: rows' => run rows' (process_row row env st)
  end.

End Replay.

(** ** Vocabulary for the properties of a round and of a run *)

Module Step.
Import Py Replay.

(** The world is well behaved when no lag is negative: the clock never
    runs backwards and a sleep lasts at least what was asked. *)
Definition env_ok (env : Env) : Prop :=
  (0 <= before_start env /\ 0 <= before_now env /\
   0 <= oversleep env /\ 0 <= before_send env)%Q.

Definition baseline (st : State) : option Q * option Q :=
  (start_ts st, start_time st).

(** [start_ts] and [start_time] are set together. *)
Definition paired (st : State) : Prop :=
  start_ts st = None <-> start_time st = None.


Definition is_Printed (ev : Event) : bool :=
  match ev with Printed _ => true | _ => false end.

Definition skip_report (ev : Event) : Prop :=
  exists e row, ev = Printed (SkipLine e row).

(** A row the parsing statements reject. *)
Definition malformed (row : Row) : bool :=
  match parse_row row with
  | inl _ => true
  | inr _ => false
  end.

(** [now], the reading the round takes of the wall clock. *)
Definition now_of (st : State) (env : Env) : Q :=
  match start_ts st with
  | None => (clock st + before_start env + before_now env)%Q
  | Some _ => (clock st + before_now env)%Q
  end.

(** The call of [time.sleep], if any, for a given [wait_time], and the
    clock when the wait is over. *)
Definition sleep_events (w : Q) : list Event :=
  if Qpositive w then [Slept w] else [].

Definition clock_after_wait (env : Env) (now w : Q) : Q :=
  if Qpositive w then (now + w + oversleep env)%Q else now.

(** What a round appends once the wait is over: the frame and its
    confirmation, or the report of the exception. *)
Definition outcome (row : Row) (env : Env) (f : Fields) (c1 : Q) : list Event :=
  match bytes (data_bytes f), send_raises env with
  | inl e, _ => [Printed (SkipLine e row)]
  | inr _, Some e => [Printed (SkipLine e row)]
  | inr payload, None =>
      [Sent (c1 + before_send env)%Q
         {| arbitration_id := canid f; data := payload;
            is_extended_id := is_extended f |};
       Printed (SentLine (sent_line f))]
  end.

(** The rest of the body once [now] is read and [wait_time] known, written
    out in direct style: lines 40 to 45. *)
Definition after_wait (env : Env) (f : Fields) (s0 t0 : option Q)
    (now w : Q) (tr : list Event) : State * (exn + unit) :=
  let c1 := if Qpositive w then (now + w + oversleep env)%Q else now in
  let tr1 := if Qpositive w then (tr ++ [Slept w])%list else tr in
  let c2 := (c1 + before_send env)%Q in
  match bytes (data_bytes f), send_raises env with
  | inl e, _ =>
      ({| start_ts := s0; start_time := t0; clock := c1; trace := tr1 |},
       inl e)
  | inr _, Some e =>
      ({| start_ts := s0; start_time := t0; clock := c2; trace := tr1 |},
       inl e)
  | inr payload, None =>
      ({| start_ts := s0; start_time := t0; clock := c2;
          trace := (tr1 ++ [Sent c2 {| arbitration_id := canid f;
                                       data := payload;
                                       is_extended_id := is_extended f |}])
                   ++ [Printed (SentLine (sent_line f))] |},
       inr tt)
  end.

(** The times of the transmissions of a trace, oldest first. *)
Fixpoint send_times (tr : list Event) : list Q :=
  match tr with
  | [] => []
  | Sent t _ :: tr' => t :: send_times tr'
  | _ :: tr' => send_times tr'
  end.

End Step.

(** ** Sample rows and runs *)

Module Samples.
Import Py Replay.

(** A row whose cells are all texts, from its (column, text) pairs. *)
Definition row_of (cells : list (string * string)) : Row :=
  list_to_map (prod_map id Some <$> cells).

(** A world without latency in which every send succeeds. *)
Definition calm : Env :=
  {| before_start := 0; before_now := 0; oversleep := 0; before_send := 0;
     send_raises := None |}.

Definition frame (t id len ext : string) (ds : list (string * string)) : Row :=
  row_of (("Time Stamp", t) :: ("ID", id) :: ("LEN", len) ::
          ("Extended", ext) :: ds).

Definition d8 (d1 d2 d3 : string) : list (string * string) :=
  [("D1", d1); ("D2", d2); ("D3", d3); ("D4", ""); ("D5", ""); ("D6", "");
   ("D7", ""); ("D8", "")].

(** Rows of a small log: a frame at 5 s, a row whose ID is no hexadecimal
    text, a frame at 6.5 s, and a frame with a data field above 255. *)
Definition row_a : Row := frame "5000000" "1A3" "3" "True" (d8 "0a" "" "FF").
Definition row_bad_id : Row := frame "0" "zz" "1" "False" (d8 "00" "" "").
Definition row_b : Row := frame "6500000" "7ff" "2" "false" (d8 "1" "2" "").
Definition row_big : Row := frame "7000000" "10" "1" "False" (d8 "1FF" "" "").

Definition fields_a : Fields :=
  {| ts := 5000000 # 1000000; canid := 419; dlc := 3; is_extended := true;
     data_bytes := [10; 255] |}.
Definition fields_b : Fields :=
  {| ts := 6500000 # 1000000; canid := 2047; dlc := 2; is_extended := false;
     data_bytes := [1; 2] |}.

(** A world in which the transport refuses the frame. *)
Definition bus_down : Env :=
  {| before_start := 0; before_now := 0; oversleep := 0; before_send := 0;
     send_raises := Some (CanError "Transmit buffer full") |}.

(** A world in which [bus.send] takes half a second. *)
Definition slow_send : Env :=
  {| before_start := 0; before_now := 0; oversleep := 0;
     before_send := 1 # 2; send_raises := None |}.

(** A world in which a sleep lasts a quarter of a second too long. *)
Definition jitter : Env :=
  {| before_start := 0; before_now := 0; oversleep := 1 # 4;
     before_send := 0; send_raises := None |}.

(** Three frames without data, captured at 0 s, 1 s and 1.5 s. *)
Definition row_t0 : Row := frame "0" "100" "0" "False" [].
Definition row_t1 : Row := frame "1000000" "100" "0" "False" [].
Definition row_t2 : Row := frame "1500000" "100" "0" "False" [].
Definition fields_t1 : Fields :=
  {| ts := 1000000 # 1000000; canid := 256; dlc := 0; is_extended := false;
     data_bytes := [] |}.

(** A frame whose LEN is negative. *)
Definition row_neg : Row := frame "0" "100" "-1" "False" (d8 "" "" "").
Definition fields_neg : Fields :=
  {| ts := 0 # 1000000; canid := 256; dlc := -1; is_extended := false;
     data_bytes := [] |}.

End Samples.

(** ** Properties in the words of the specification *)

Module Spec.
Import Py Replay Step.

(** The capture timestamps of the rows of a log that parse, in order. *)
Definition timestamps (rows : list (Row * Env)) : list Q :=
  omap (fun re => match parse_row re.1 with
                  | inr f => Some (ts f)
                  | inl _ => None
                  end) rows.

(** Between two consecutive transmissions at least the difference of the
    two capture timestamps passes. *)
Fixpoint gaps_respected (stamps times : list Q) : Prop :=
  match stamps, times with
  | s1 :: ((s2 :: _) as stamps'), t1 :: ((t2 :: _) as times') =>
      (s2 - s1 <= t2 - t1)%Q /\ gaps_respected stamps' times'
  | _, _ => True
  end.

(** The name of the column of data sub-field [i]. *)
Definition data_key (i : Z) : string := "D" ++ str_int i.

(** The text of data sub-field [i], when the row has one. *)
Definition subfield (row : Row) (i : Z) : option string :=
  mjoin (row !! data_key i).

(** The non-empty data sub-fields D1..D<len>, in field order. *)
Definition nonempty_subfields (row : Row) (len : Z) : list string :=
  filter (fun s => s <> "") (omap (subfield row) (seqZ 1 len)).

(** The text [s] read as a hexadecimal integer is [b]. *)
Definition hex_of (s : string) (b : Z) : Prop := parse_int 16 s = Some b.

(** The integer a byte stands for. *)
Definition byte_value (b : Byte.byte) : Z := Z.of_N (Byte.to_N b).

(** Two characters are the same up to the case of ASCII letters. *)
Definition is_upper (c : ascii) : bool :=
  ((65 <=? N_of_ascii c) && (N_of_ascii c <=? 90))%N.

Definition same_letter (a b : ascii) : bool :=
  Ascii.eqb a b ||
  (is_upper a && (N_of_ascii b =? N_of_ascii a + 32)%N) ||
  (is_upper b && (N_of_ascii a =? N_of_ascii b + 32)%N).

(** Two texts compare equal, case-insensitively. *)
Fixpoint equal_ignoring_case (s t : string) : bool :=
  match s, t with
  | EmptyString, EmptyString => true
  | String a s', String b t' => same_letter a b && equal_ignoring_case s' t'
  | _, _ => false
  end.

(** The value of a character as an upper-case digit: 0-9, then A-Z. *)
Definition upper_digit (c : ascii) : option N :=
  let n := N_of_ascii c in
  (if (48 <=? n) && (n <=? 57) then Some (n - 48)
   else if (65 <=? n) && (n <=? 90) then Some (n - 55)
   else None)%N.

(** The number a text of upper-case digits of [base] writes, read from the
    left. *)
Fixpoint number_of (base acc : N) (s : string) : option N :=
  match s with
  | EmptyString => Some acc
  | String c s' =>
      match upper_digit c with
      | Some d =>
          if (d <? base)%N then number_of base (acc * base + d) s' else None
      | None => None
      end
  end.

(** [s] is a non-empty text of upper-case digits of [base] that writes [n]. *)
Definition denotes (base : N) (s : string) (n : N) : Prop :=
  s <> "" /\ number_of base 0 s = Some n.

(** [s] writes the integer [z]: a minus sign when it is negative, then
    its absolute value. *)
Definition signed_denotes (base : N) (s : string) (z : Z) : Prop :=
  exists d, s = sign_of z ++ d /\ denotes base d (Z.abs_N z).

(** The confirmation line with the time since the first record in it. *)
Definition line_with_elapsed_time (f : Fields) (first_ts : Q) : string :=
  "Sent t=" ++ format_6f (ts f - first_ts) ++ "s ID=0x" ++ format_X (canid f) ++
  " DLC=" ++ str_int (dlc f) ++
  " Data=" ++ join " " (map format_02X (data_bytes f)).

End Spec.

(** ** A run seen as a whole: what goes out, what is printed, when *)

Module Log.
Import Py Replay Step.

(** The frames of a trace, the lines of a trace and the arguments of the
    calls of [time.sleep], oldest first. *)
Fixpoint sent_messages (tr : list Event) : list Message :=
  match tr with
  | [] => []
  | Sent _ m :: tr' => m :: sent_messages tr'
  | _ :: tr' => sent_messages tr'
  end.

Fixpoint printed_lines (tr : list Event) : list Output :=
  match tr with
  | [] => []
  | Printed o :: tr' => o :: printed_lines tr'
  | _ :: tr' => printed_lines tr'
  end.

Fixpoint sleeps (tr : list Event) : list Q :=
  match tr with
  | [] => []
  | Slept w :: tr' => w :: sleeps tr'
  | _ :: tr' => sleeps tr'
  end.

(** The frame a row gives when it parses, its values are bytes and the
    transport takes it; the state of the replay plays no part. *)
Definition frame_of (row : Row) (env : Env) : option Message :=
  match parse_row row with
  | inl _ => None
  | inr f =>
      match bytes (data_bytes f), send_raises env with
      | inr payload, None =>
          Some {| arbitration_id := canid f; data := payload;
                  is_extended_id := is_extended f |}
      | _, _ => None
      end
  end.

(** The line a row leaves on the console. *)
Definition report_of (row : Row) (env : Env) : Output :=
  match parse_row row with
  | inl e => SkipLine e row
  | inr f =>
      match bytes (data_bytes f), send_raises env with
      | inl e, _ => SkipLine e row
      | inr _, Some e => SkipLine e row
      | inr _, None => SentLine (sent_line f)
      end
  end.

(** [wait_time] of a round, from the state the round starts in. *)
Definition round_wait (st : State) (env : Env) (f : Fields) : Q :=
  match start_ts st, start_time st with
  | Some s0, Some t0 => wait_time_of (ts f) s0 (now_of st env) t0
  | _, _ =>
      wait_time_of (ts f) (ts f) (now_of st env)
        (clock st + before_start env)%Q
  end.

(** The events a round appends to the trace. *)
Definition round_events (row : Row) (env : Env) (st : State) : list Event :=
  match parse_row row with
  | inl e => [Printed (SkipLine e row)]
  | inr f =>
      let w := round_wait st env f in
      (sleep_events w ++
       outcome row env f (clock_after_wait env (now_of st env) w))%list
  end.

(** The wall clock at the end of a round. *)
Definition round_clock (row : Row) (env : Env) (st : State) : Q :=
  match parse_row row with
  | inl _ => clock st
  | inr f =>
      let c1 := clock_after_wait env (now_of st env) (round_wait st env f) in
      match bytes (data_bytes f) with
      | inl _ => c1
      | inr _ => (c1 + before_send env)%Q
      end
  end.

(** The statements of lines 22 to 25 succeed on a row, with [len] for
    LEN. *)
Definition header_ok (row : Row) (len : Z) : Prop :=
  exists c_ts us c_id id c_len c_ext,
    row !! "Time Stamp" = Some c_ts /\ int 10 c_ts = inr us /\
    row !! "ID" = Some c_id /\ int 16 c_id = inr id /\
    row !! "LEN" = Some c_len /\ int 10 c_len = inr len /\
    row !! "Extended" = Some (Some c_ext).

(** The data sub-field [j] of a row is there and does not stop the data
    loop: it is empty, [None], or a hexadecimal text. *)
Definition passable (row : Row) (j : Z) : Prop :=
  exists cell,
    row !! Spec.data_key j = Some cell /\
    (truthy cell = false \/ exists b, int 16 cell = inr b).

(** A log row that declares nine data bytes under the usual header of
    eight data columns, and one whose second data field holds a blank. *)
Definition row_len9 : Row :=
  Samples.frame "0" "100" "9" "False"
    [("D1", "01"); ("D2", "02"); ("D3", ""); ("D4", "04"); ("D5", "");
     ("D6", ""); ("D7", ""); ("D8", "08")].

Definition row_blank : Row :=
  Samples.frame "0" "100" "2" "False" (Samples.d8 "01" " " "").

(** A row with text left of the data columns it declares: LEN is 1, D2
    and D3 hold no hexadecimal text. *)
Definition row_short : Row :=
  Samples.frame "250000" "1a4" "1" "TRUE" (Samples.d8 "a" "zz" "--").

Definition fields_short : Fields :=
  {| ts := 250000 # 1000000; canid := 420; dlc := 1; is_extended := true;
     data_bytes := [10] |}.

(** The fields of a row with another arbitration id. *)
Definition with_canid (f : Fields) (id : Z) : Fields :=
  {| ts := ts f; canid := id; dlc := dlc f; is_extended := is_extended f;
     data_bytes := data_bytes f |}.

(** A row with every cell in lower case. *)
Definition lower_cell (cell : option string) : option string :=
  match cell with
  | Some s => Some (lower s)
  | None => None
  end.

Definition lower_row (row : Row) : Row := lower_cell <$> row.

(** A frame with another arbitration id. *)
Definition with_arbitration_id (m : Message) (id : Z) : Message :=
  {| arbitration_id := id; data := data m;
     is_extended_id := is_extended_id m |}.

End Log.

(** ** The loop with a timer and a console that can fail *)

Module Faults.
Import Py Replay Step Log.

(** The outside world of one iteration: the lags and the transport of
    [Env], and what [time.sleep] (line 41), the [print] of the
    confirmation (line 45) and the [print] of the handler (line 47) do
    when they are called: return, or raise. *)
Record World : Type := {
  env : Env;
  sleep_raises : option exn;
  print_raises : option exn;
  report_raises : option exn
}.

(** A world in which the timer and the console work. *)
Definition quiet (e : Env) : World :=
  {| env := e; sleep_raises := None; print_raises := None;
     report_raises := None |}.

Definition faultless (world : World) : Prop :=
  sleep_raises world = None /\ print_raises world = None /\
  report_raises world = None.

(** [time.sleep(w)]: the call is recorded; when it raises, no time has
    passed. *)
Definition time_sleep (w : Q) (world : World) : M unit :=
  match sleep_raises world with
  | Some e => fun st => (fst (emit (Slept w) (clock st) st), inl e)
  | None => Replay.time_sleep w (oversleep (env world))
  end.

(** [print(...)] on line 45. *)
Definition print (o : Output) (world : World) : M unit :=
  match print_raises world with
  | Some e => raise e
  | None => Replay.print o
  end.

(** The body of [try], lines 22 to 45. *)
Definition body (row : Row) (world : World) : M unit :=
  f <- lift (parse_row row) ;;
  st <- get ;;
  match start_ts st with
  | None =>
      set_start_ts (ts f) ;;
      t <- time_time (before_start (env world)) ;;
      set_start_time t
  | Some _ => ret tt
  end ;;
  now <- time_time (before_now (env world)) ;;
  st <- get ;;
  t0 <- operand (start_time st) ;;
  let elapsed := (now - t0)%Q in
  s0 <- operand (start_ts st) ;;
  let wait_time := ((ts f - s0) - elapsed)%Q in
  (if Qpositive wait_time
   then time_sleep wait_time world
   else ret tt) ;;
  payload <- lift (bytes (data_bytes f)) ;;
  let msg := {| arbitration_id := canid f; data := payload;
                is_extended_id := is_extended f |} in
  bus_send (before_send (env world)) (send_raises (env world)) msg ;;
  print (SentLine (sent_line f)) world.

(** One round of the loop. The [print] of the handler is outside [try]:
    the exception it raises leaves the loop, and comes back as the second
    component. *)
Definition process_row (row : Row) (world : World) (st : State)
  : State * option exn :=
  match body row world st with
  | (st', inr _) => (st', None)
  | (st', inl e) =>
      match report_raises world with
      | None => (fst (Replay.print (SkipLine e row) st'), None)
      | Some e' => (st', Some e')
      end
  end.

(** The loop: it ends with the input, or with the exception that left
    it. *)
Fixpoint run (rows : list (Row * World)) (st : State) : State * option exn :=
  match rows with
  | [] => (st, None)
  | (row, world) :: rows' =>
      match process_row row world st with
      | (st', None) => run rows' st'
      | (st', Some e) => (st', Some e)
      end
  end.

(** The rows of a log with the lags and the transport of their worlds. *)
Definition envs_of (rows : list (Row * World)) : list (Row * Env) :=
  prod_map id env <$> rows.

(** *** A round in direct style *)

(** The exception of [time.sleep], when it is called and raises. *)
Definition sleep_failure (st : State) (world : World) (f : Fields)
  : option exn :=
  if Qpositive (round_wait st (env world) f) then sleep_raises world else None.

(** The exception of lines 43 to 45, if any. *)
Definition failure_after_wait (world : World) (f : Fields) : option exn :=
  match bytes (data_bytes f) with
  | inl e => Some e
  | inr _ =>
      match send_raises (env world) with
      | Some e => Some e
      | None => print_raises world
      end
  end.

(** The exception the body raises, if any. *)
Definition body_failure (row : Row) (world : World) (st : State)
  : option exn :=
  match parse_row row with
  | inl e => Some e
  | inr f =>
      match sleep_failure st world f with
      | Some e => Some e
      | None => failure_after_wait world f
      end
  end.

(** What the handler leaves on the console. *)
Definition report (row : Row) (world : World) (e : exn) : list Event :=
  match report_raises world with
  | None => [Printed (SkipLine e row)]
  | Some _ => []
  end.

(** The events a round appends to the trace. *)
Definition round_events (row : Row) (world : World) (st : State)
  : list Event :=
  match parse_row row with
  | inl e => report row world e
  | inr f =>
      let w := round_wait st (env world) f in
      let c1 := clock_after_wait (env world) (now_of st (env world)) w in
      (sleep_events w ++
       match sleep_failure st world f with
       | Some e => report row world e
       | None =>
           match bytes (data_bytes f), send_raises (env world) with
           | inl e, _ => report row world e
           | inr _, Some e => report row world e
           | inr payload, None =>
               Sent (c1 + before_send (env world))%Q
                 {| arbitration_id := canid f; data := payload;
                    is_extended_id := is_extended f |} ::
               match print_raises world with
               | Some e => report row world e
               | None => [Printed (SentLine (sent_line f))]
               end
           end
       end)%list
  end.

(** The wall clock at the end of a round. *)
Definition round_clock (row : Row) (world : World) (st : State) : Q :=
  match parse_row row with
  | inl _ => clock st
  | inr f =>
      match sleep_failure st world f with
      | Some _ => now_of st (env world)
      | None =>
          let c1 := clock_after_wait (env world) (now_of st (env world))
                      (round_wait st (env world) f) in
          match bytes (data_bytes f) with
          | inl _ => c1
          | inr _ => (c1 + before_send (env world))%Q
          end
      end
  end.

(** The baseline at the end of a round. *)
Definition round_baseline (row : Row) (world : World) (st : State)
  : option Q * option Q :=
  match parse_row row, start_ts st with
  | inr f, None => (Some (ts f), Some (clock st + before_start (env world))%Q)
  | _, _ => (start_ts st, start_time st)
  end.

(** The exception that leaves the loop in a round, if any. *)
Definition round_escape (row : Row) (world : World) (st : State)
  : option exn :=
  match body_failure row world st with
  | Some _ => report_raises world
  | None => None
  end.

(** Where an exception of the body comes from, and the frame that had gone
    out when it was raised. *)
Inductive raised_by (row : Row) (world : World) (st : State)
  : exn -> option Message -> Prop :=
| in_parsing e :
    parse_row row = inl e ->
    raised_by row world st e None
| in_waiting f e :
    parse_row row = inr f ->
    Qpositive (round_wait st (env world) f) = true ->
    sleep_raises world = Some e ->
    raised_by row world st e None
| in_frame_construction f e :
    parse_row row = inr f ->
    sleep_failure st world f = None ->
    bytes (data_bytes f) = inl e ->
    raised_by row world st e None
| in_sending f payload e :
    parse_row row = inr f ->
    sleep_failure st world f = None ->
    bytes (data_bytes f) = inr payload ->
    send_raises (env world) = Some e ->
    raised_by row world st e None
| in_printing f payload e :
    parse_row row = inr f ->
    sleep_failure st world f = None ->
    bytes (data_bytes f) = inr payload ->
    send_raises (env world) = None ->
    print_raises world = Some e ->
    raised_by row world st e
      (Some {| arbitration_id := canid f; data := payload;
               is_extended_id := is_extended f |}).

(** The line a row leaves on the console when the handler can print. *)
Definition report_of (row : Row) (world : World) : Output :=
  match parse_row row with
  | inl e => SkipLine e row
  | inr f =>
      match failure_after_wait world f with
      | Some e => SkipLine e row
      | None => SentLine (sent_line f)
      end
  end.

(** Timestamps, in microseconds, below which the float of line 22 is
    printed with its six decimals unrounded: 2 ^ 33 seconds. *)
Definition exact_print_bound : Z := 8589934592000000.

(** Worlds for the examples: a console that is gone, a confirmation that
    cannot be printed, a timer that refuses the wait. *)
Definition no_console (e : Env) : World :=
  {| env := e; sleep_raises := None;
     print_raises := Some (OSError "Broken pipe");
     report_raises := Some (OSError "Broken pipe") |}.

Definition no_confirmation (e : Env) : World :=
  {| env := e; sleep_raises := None;
     print_raises := Some (OSError "No space left on device");
     report_raises := None |}.

Definition no_timer (e : Env) : World :=
  {| env := e;
     sleep_raises := Some (OverflowError "timestamp too large");
     print_raises := None; report_raises := None |}.

(** A world in which the clock is set back half a second between the two
    readings of a round. *)
Definition clock_set_back : Env :=
  {| before_start := 0; before_now := -(1 # 2); oversleep := 0;
     before_send := 0; send_raises := None |}.

End Faults.

Example parse_int_samples :
  Py.parse_int 16 "1A" = Some 26 /\ Py.parse_int 16 " 0x1a " = Some 26 /\
  Py.parse_int 16 "-0X_f_f" = Some (-255) /\ Py.parse_int 16 "G1" = None /\
  Py.parse_int 16 "" = None /\ Py.parse_int 16 "0x" = None /\
  Py.parse_int 10 "0x10" = None /\ Py.parse_int 10 "007" = Some 7 /\
  Py.parse_int 10 "1__0" = None /\ Py.parse_int 10 "1_0" = Some 10 /\
  Py.parse_int 10 "- 1" = None /\ Py.parse_int 10 "_1" = None /\
  Py.parse_int 10 "1_" = None /\ Py.parse_int 10 "+8" = Some 8.
Proof. repeat split; reflexivity. Qed.

Example format_samples :
  Py.str_int 0 = "0" /\ Py.str_int (-12) = "-12" /\ Py.str_int 1050 = "1050" /\
  Py.format_X 419 = "1A3" /\ Py.format_X (-26) = "-1A" /\ Py.format_X 0 = "0" /\
  Py.format_02X 5 = "05" /\ Py.format_02X 255 = "FF" /\
  Py.format_02X 256 = "100" /\ Py.format_02X (-1) = "-1" /\
  Py.format_6f (1234567 # 1000000) = "1.234567" /\
  Py.format_6f (-5 # 1000000) = "-0.000005" /\
  Py.format_6f (1 # 4000000) = "0.000000" /\
  Py.format_6f (3 # 4000000) = "0.000001" /\
  Py.format_6f (3 # 2000000) = "0.000002" /\
  Py.format_6f (-1 # 3) = "-0.333333" /\
  Py.join " " ["0A"; "FF"; "10"] = "0A FF 10" /\ Py.join " " [] = "".
Proof. repeat split; reflexivity. Qed.

Example bytes_samples :
  Py.bytes [0; 255; 16] = inr [Byte.x00; Byte.xff; Byte.x10] /\
  Py.bytes [1; 256] = inl Py.ValueError_bytes /\
  Py.bytes [-1] = inl Py.ValueError_bytes.
Proof. repeat split; reflexivity. Qed.

(** A log of three frames stamped 0 s, 0.1 s and 0.25 s, replayed in a
    world without latency from wall-clock time 100: the frames go out at
    100, 100.1 and 100.25, and three confirmations are printed. *)
Example replay_three_frames :
  let rows :=
    [(Samples.frame "0" "1A3" "1" "False" (Samples.d8 "01" "" ""), Samples.calm);
     (Samples.frame "100000" "1A3" "1" "False" (Samples.d8 "02" "" ""), Samples.calm);
     (Samples.frame "250000" "1a4" "2" "TRUE" (Samples.d8 "a" "" ""), Samples.calm)] in
  let final := Replay.run rows (Replay.initial 100) in
  map Qred (Step.send_times (Replay.trace final)) = [100 # 1; 1001 # 10; 401 # 4] /\
  List.filter Step.is_Printed (Replay.trace final) =
    [Replay.Printed (Replay.SentLine "Sent t=0.000000s ID=0x1A3 DLC=1 Data=01");
     Replay.Printed (Replay.SentLine "Sent t=0.100000s ID=0x1A3 DLC=1 Data=02");
     Replay.Printed (Replay.SentLine "Sent t=0.250000s ID=0x1A4 DLC=2 Data=0A")].
Proof. split; vm_compute; reflexivity. Qed.

(** A log with a row that does not parse, a row with a data field above
    255 and a row the transport refuses: each is reported, and the replay
    goes on. *)
Example replay_with_skipped_rows :
  let rows :=
    [(Samples.row_a, Samples.calm); (Samples.row_bad_id, Samples.calm);
     (Samples.row_big, Samples.calm); (Samples.row_b, Samples.bus_down);
     (Samples.row_b, Samples.calm)] in
  let final := Replay.run rows (Replay.initial 100) in
  List.filter Step.is_Printed (Replay.trace final) =
    [Replay.Printed (Replay.SentLine "Sent t=5.000000s ID=0x1A3 DLC=3 Data=0A FF");
     Replay.Printed (Replay.SkipLine (Py.ValueError_int 16 "zz") Samples.row_bad_id);
     Replay.Printed (Replay.SkipLine Py.ValueError_bytes Samples.row_big);
     Replay.Printed (Replay.SkipLine (Py.CanError "Transmit buffer full")
                       Samples.row_b);
     Replay.Printed (Replay.SentLine "Sent t=6.500000s ID=0x7FF DLC=2 Data=01 02")] /\
  length (Step.send_times (Replay.trace final)) = 2%nat.
Proof. split; vm_compute; reflexivity. Qed.

(** ** One round of the loop, case by case *)

Module StepFacts.
Import Py Replay Step.

Lemma body_malformed row env st e :
  parse_row row = inl e -> body row env st = (st, inl e).
Proof. intros H. unfold body, bind, lift. now rewrite H. Qed.

Lemma body_parsed row env st f :
  parse_row row = inr f ->
  body row env st =
  match start_ts st, start_time st with
  | None, _ =>
      let t := (clock st + before_start env)%Q in
      let now := (t + before_now env)%Q in
      after_wait env f (Some (ts f)) (Some t) now
        (wait_time_of (ts f) (ts f) now t) (trace st)
  | Some s0, Some t0 =>
      let now := (clock st + before_now env)%Q in
      after_wait env f (Some s0) (Some t0) now
        (wait_time_of (ts f) s0 now t0) (trace st)
  | Some s0, None =>
      ({| start_ts := Some s0; start_time := None;
          clock := (clock st + before_now env)%Q; trace := trace st |},
       inl (TypeError "-"))
  end.
Proof.
  intros H. unfold body, bind, lift. rewrite H.
  unfold get, after_wait, wait_time_of.
  destruct st as [[s0|] [t0|] c tr]; cbn;
    repeat match goal with
      | |- context [Qpositive ?w] => destruct (Qpositive w); cbn
      | |- context [bytes ?l] => destruct (bytes l); cbn
      | |- context [send_raises ?e] => destruct (send_raises e); cbn
      end; reflexivity.
Qed.

Lemma handler_after_wait row env st f s0 t0 now w :
  body row env st = after_wait env f s0 t0 now w (trace st) ->
  trace (process_row row env st) =
    (trace st ++ sleep_events w ++
     outcome row env f (clock_after_wait env now w))%list /\
  baseline (process_row row env st) = (s0, t0).
Proof.
  intros Hb. unfold process_row. rewrite Hb.
  unfold after_wait, sleep_events, outcome, clock_after_wait, baseline.
  destruct (Qpositive w), (bytes (data_bytes f)), (send_raises env); cbn;
    rewrite <- ?app_assoc; cbn; rewrite ?app_nil_r; split; reflexivity.
Qed.

(** A row that does not parse: the report and nothing else. *)
Lemma round_malformed row env st e :
  parse_row row = inl e ->
  process_row row env st =
  {| start_ts := start_ts st; start_time := start_time st;
     clock := clock st;
     trace := trace st ++ [Printed (SkipLine e row)] |}.
Proof.
  intros H. unfold process_row. rewrite (body_malformed _ _ _ _ H).
  reflexivity.
Qed.

(** The first row that parses sets the baseline. *)
Lemma round_first row env st f :
  parse_row row = inr f -> start_ts st = None ->
  let t := (clock st + before_start env)%Q in
  let now := (t + before_now env)%Q in
  let w := wait_time_of (ts f) (ts f) now t in
  trace (process_row row env st) =
    (trace st ++ sleep_events w ++
     outcome row env f (clock_after_wait env now w))%list /\
  baseline (process_row row env st) = (Some (ts f), Some t).
Proof.
  intros H Hs. cbv zeta. apply handler_after_wait.
  rewrite (body_parsed _ _ _ _ H), Hs. reflexivity.
Qed.

(** A later row that parses reads the baseline and leaves it. *)
Lemma round_later row env st f s0 t0 :
  parse_row row = inr f -> start_ts st = Some s0 -> start_time st = Some t0 ->
  let now := (clock st + before_now env)%Q in
  let w := wait_time_of (ts f) s0 now t0 in
  trace (process_row row env st) =
    (trace st ++ sleep_events w ++
     outcome row env f (clock_after_wait env now w))%list /\
  baseline (process_row row env st) = (Some s0, Some t0).
Proof.
  intros H Hs Ht. cbv zeta. apply handler_after_wait.
  rewrite (body_parsed _ _ _ _ H), Hs, Ht. reflexivity.
Qed.

(** The baseline never changes once [start_ts] is set. *)
Lemma baseline_kept row env st :
  is_Some (start_ts st) ->
  baseline (process_row row env st) = baseline st.
Proof.
  intros [s0 Hs]. destruct (parse_row row) as [e|f] eqn:Hp.
  - rewrite (round_malformed _ _ _ _ Hp). reflexivity.
  - destruct (start_time st) as [t0|] eqn:Ht.
    + destruct (round_later row env st f s0 t0 Hp Hs Ht) as [_ Hb].
      rewrite Hb. unfold baseline. now rewrite Hs, Ht.
    + unfold process_row. rewrite (body_parsed _ _ _ _ Hp), Hs, Ht.
      unfold baseline. cbn. now rewrite Hs, Ht.
Qed.

Lemma baseline_kept_run rows st :
  is_Some (start_ts st) -> baseline (run rows st) = baseline st.
Proof.
  revert st. induction rows as [|[row env] rows IH]; intros st Hs; cbn.
  - reflexivity.
  - rewrite IH.
    + now apply baseline_kept.
    + pose proof (baseline_kept row env st Hs) as Hb.
      unfold baseline in Hb. destruct Hs as [s0 Hs]. rewrite Hs in Hb.
      inversion Hb as [[H1 H2]]. eauto.
Qed.

Lemma run_app rows1 rows2 st :
  run (rows1 ++ rows2) st = run rows2 (run rows1 st).
Proof.
  revert st. induction rows1 as [|[row env] rows1 IH]; intros st; cbn.
  - reflexivity.
  - apply IH.
Qed.

Lemma run_snoc rows row env st :
  run (rows ++ [(row, env)]) st = process_row row env (run rows st).
Proof. now rewrite run_app. Qed.

(** As long as no row parses, the state only collects reports. *)
Lemma run_malformed rows st :
  forallb (fun re => malformed re.1) rows = true ->
  exists evs,
    Forall skip_report evs /\
    run rows st =
    {| start_ts := start_ts st; start_time := start_time st;
       clock := clock st; trace := trace st ++ evs |}.
Proof.
  revert st. induction rows as [|[row env] rows IH]; intros st Hall.
  - exists []. split; [constructor|]. cbn. rewrite app_nil_r. now destruct st.
  - cbn in Hall. apply andb_prop in Hall as [Hm Hall].
    unfold malformed in Hm. cbn in Hm.
    destruct (parse_row row) as [e|f] eqn:Hp; [|discriminate].
    cbn. rewrite (round_malformed _ env st _ Hp).
    match goal with |- context [run rows ?s] =>
      destruct (IH s Hall) as (evs & Hevs & ->) end. cbn.
    exists (Printed (SkipLine e row) :: evs). split.
    + constructor; [now exists e, row | assumption].
    + now rewrite <- app_assoc.
Qed.

(** Every reachable state has both baseline variables set or neither. *)
Lemma paired_round row env st :
  paired st -> paired (process_row row env st).
Proof.
  intros Hp. destruct (parse_row row) as [e|f] eqn:Hr.
  - rewrite (round_malformed _ _ _ _ Hr). exact Hp.
  - destruct (start_ts st) as [s0|] eqn:Hs.
    + destruct (start_time st) as [t0|] eqn:Ht.
      * destruct (round_later row env st f s0 t0 Hr Hs Ht) as [_ Hb].
        unfold baseline in Hb. inversion Hb as [[H1 H2]].
        unfold paired. rewrite H1, H2. split; discriminate.
      * destruct Hp as [_ Hp]. specialize (Hp Ht). congruence.
    + destruct (round_first row env st f Hr Hs) as [_ Hb].
      unfold baseline in Hb. inversion Hb as [[H1 H2]].
      unfold paired. rewrite H1, H2. split; discriminate.
Qed.

Lemma paired_run rows st : paired st -> paired (run rows st).
Proof.
  revert st. induction rows as [|[row env] rows IH]; intros st Hp; cbn.
  - exact Hp.
  - apply IH. now apply paired_round.
Qed.

Lemma paired_initial c0 : paired (initial c0).
Proof. split; reflexivity. Qed.

(** A round on a row that parses, from any state with paired baseline
    variables: the baseline afterwards, and the events appended. *)
Lemma round_parsed row env st f :
  paired st -> parse_row row = inr f ->
  exists s0 t0,
    baseline (process_row row env st) = (Some s0, Some t0) /\
    (start_ts st = None -> s0 = ts f /\ t0 = (clock st + before_start env)%Q) /\
    (is_Some (start_ts st) -> baseline st = (Some s0, Some t0)) /\
    let w := wait_time_of (ts f) s0 (now_of st env) t0 in
    trace (process_row row env st) =
      (trace st ++ sleep_events w ++
       outcome row env f (clock_after_wait env (now_of st env) w))%list.
Proof.
  intros Hp Hr. unfold now_of. destruct (start_ts st) as [s0|] eqn:Hs.
  - destruct (start_time st) as [t0|] eqn:Ht.
    + destruct (round_later row env st f s0 t0 Hr Hs Ht) as [Htr Hb].
      exists s0, t0. split; [exact Hb|]. split; [discriminate|].
      split; [|exact Htr].
      intros _. unfold baseline. now rewrite Hs, Ht.
    + destruct Hp as [_ Hp]. specialize (Hp Ht). congruence.
  - destruct (round_first row env st f Hr Hs) as [Htr Hb].
    exists (ts f), (clock st + before_start env)%Q.
    split; [exact Hb|]. split; [intros _; split; reflexivity|].
    split; [|exact Htr].
    intros [x Hx]. discriminate.
Qed.

End StepFacts.

(** ** The baseline and the timing of a run *)

Section Timing.
Import Py Replay Step StepFacts Samples Spec.

Lemma not_positive_wait (w : Q) : (w <= 0)%Q -> Qpositive w = false.
Proof.
  intros H. unfold Qpositive. apply negb_false_iff. now apply Qle_bool_iff.
Qed.

Lemma positive_wait (w : Q) : Qpositive w = true -> (0 < w)%Q.
Proof.
  unfold Qpositive. intros H. apply negb_true_iff in H.
  apply Qnot_le_lt. intros Hle. apply Qle_bool_iff in Hle. congruence.
Qed.

Lemma non_positive_wait (w : Q) : Qpositive w = false -> (w <= 0)%Q.
Proof.
  unfold Qpositive. intros H. apply negb_false_iff in H.
  now apply Qle_bool_iff.
Qed.

Lemma no_sent_in_sleep_events w at_time m : Sent at_time m ∉ sleep_events w.
Proof.
  unfold sleep_events. destruct (Qpositive w).
  - intros H. apply list_elem_of_singleton in H. discriminate.
  - apply not_elem_of_nil.
Qed.


Lemma no_slept_in_outcome row env f c w : Slept w ∉ outcome row env f c.
Proof.
  unfold outcome.
  destruct (bytes (data_bytes f)), (send_raises env); intros H;
    repeat (apply elem_of_cons in H as [H|H]; [discriminate|]);
    now apply not_elem_of_nil in H.
Qed.

(** The state in which the first row that parses is met. *)
Lemma before_first_parsed c0 pre :
  forallb (fun re => malformed re.1) pre = true ->
  exists evs,
    Forall skip_report evs /\
    run pre (initial c0) =
    {| start_ts := None; start_time := None; clock := c0; trace := evs |}.
Proof.
  intros H. destruct (run_malformed pre (initial c0) H) as (evs & Hevs & ->).
  exists evs. split; [assumption | reflexivity].
Qed.

(** C2: the baseline pair (start_ts, start_time) is written at most once
    per run, by the first row that parses: while only malformed rows have
    been read it is unset, the first row that parses sets it to its own
    timestamp and to the wall-clock reading taken then, and whatever rows
    follow, malformed or not, leave it as it is. *)
Theorem C2_baseline_written_once
    (c0 : Q) (pre post : list (Row * Env)) (row : Row) (env : Env)
    (f : Fields) :
  forallb (fun re => malformed re.1) pre = true ->
  parse_row row = inr f ->
  baseline (run pre (initial c0)) = (None, None) /\
  baseline (run (pre ++ [(row, env)]) (initial c0)) =
    (Some (ts f), Some (c0 + before_start env)%Q) /\
  baseline (run (pre ++ (row, env) :: post) (initial c0)) =
    (Some (ts f), Some (c0 + before_start env)%Q).
Proof.
  intros Hpre Hrow.
  destruct (before_first_parsed c0 pre Hpre) as (evs & _ & Hst).
  assert (Hone : baseline (run (pre ++ [(row, env)]) (initial c0)) =
                 (Some (ts f), Some (c0 + before_start env)%Q)).
  { rewrite run_snoc, Hst.
    match goal with |- baseline (process_row _ _ ?s) = _ =>
      destruct (round_first row env s f Hrow eq_refl) as [_ Hb] end.
    exact Hb. }
  split; [now rewrite Hst|]. split; [exact Hone|].
  change ((row, env) :: post) with ([(row, env)] ++ post)%list.
  rewrite app_assoc, run_app, baseline_kept_run; [exact Hone|].
  unfold baseline in Hone. inversion Hone as [[H1 H2]]. rewrite H1. eauto.
Qed.

Lemma C2_baseline_written_once_witness :
  forallb (fun re => malformed re.1) [(row_bad_id, calm)] = true /\
  parse_row row_a = inr fields_a /\
  baseline (run ([(row_bad_id, calm)] ++ (row_a, calm) ::
                 [(row_bad_id, calm); (row_b, slow_send)]) (initial 100)) =
    (Some (ts fields_a), Some (100 + before_start calm)%Q).
Proof.
  split; [vm_compute; reflexivity|]. split; [vm_compute; reflexivity|].
  apply (C2_baseline_written_once 100 [(row_bad_id, calm)]
           [(row_bad_id, calm); (row_b, slow_send)] row_a calm fields_a);
    vm_compute; reflexivity.
Defined.



(** C1, as amended: in a well-behaved world every row that parses has its
    wait computed against the baseline of the run,
    wait_time = (ts - start_ts) - (now - start_time); [time.sleep] is called
    with exactly that value when it is positive and not at all otherwise;
    and a frame is never transmitted before start_time + (ts - start_ts). *)
Theorem C1_wait_against_baseline_no_early_send
    (c0 : Q) (pre post : list (Row * Env)) (row : Row) (env : Env)
    (f : Fields) :
  env_ok env ->
  parse_row row = inr f ->
  let st := run pre (initial c0) in
  let final := run (pre ++ (row, env) :: post) (initial c0) in
  let now := now_of st env in
  exists s0 t0,
    baseline final = (Some s0, Some t0) /\
    let w := ((ts f - s0) - (now - t0))%Q in
    trace (process_row row env st) =
      (trace st ++ (if Qpositive w then [Slept w] else []) ++
       outcome row env f (clock_after_wait env now w))%list /\
    (t0 + (ts f - s0) <= clock_after_wait env now w)%Q /\
    forall at_time m,
      Sent at_time m ∈ outcome row env f (clock_after_wait env now w) ->
      (t0 + (ts f - s0) <= at_time)%Q.
Proof.
  intros (Hstart & Hnow & Hover & Hsend) Hrow st final now.
  assert (Hp : paired st) by apply paired_run, paired_initial.
  destruct (round_parsed row env st f Hp Hrow)
    as (s0 & t0 & Hb & Hfirst & Hlater & Htr).
  assert (Hcall : (t0 + (ts f - s0) <=
                   clock_after_wait env now
                     ((ts f - s0) - (now - t0)))%Q).
  { unfold clock_after_wait. destruct (Qpositive _) eqn:Hw.
    - lra.
    - apply non_positive_wait in Hw. lra. }
  exists s0, t0. split; [|split; [|split]].
  - unfold final.
    change ((row, env) :: post) with ([(row, env)] ++ post)%list.
    rewrite app_assoc, run_app, run_snoc. fold st.
    rewrite baseline_kept_run; [exact Hb|].
    unfold baseline in Hb. inversion Hb as [[H1 H2]]. rewrite H1. eauto.
  - exact Htr.
  - exact Hcall.
  - intros at_time m Hin. unfold outcome in Hin.
    destruct (bytes (data_bytes f)) as [e|payload].
    { apply list_elem_of_singleton in Hin. discriminate. }
    destruct (send_raises env) as [e|].
    { apply list_elem_of_singleton in Hin. discriminate. }
    apply elem_of_cons in Hin as [Hin|Hin].
    2:{ apply list_elem_of_singleton in Hin. discriminate. }
    injection Hin as -> _. cbv zeta in Hcall. lra.
Qed.

Lemma C1_wait_against_baseline_no_early_send_witness :
  env_ok calm /\
  parse_row row_t1 = inr fields_t1 /\
  exists s0 t0,
    baseline (run ([(row_t0, slow_send)] ++ (row_t1, calm) :: [])
                (initial 100)) = (Some s0, Some t0) /\
    forall at_time m,
      Sent at_time m ∈
        outcome row_t1 calm fields_t1
          (clock_after_wait calm
             (now_of (run [(row_t0, slow_send)] (initial 100)) calm)
             ((ts fields_t1 - s0) -
              (now_of (run [(row_t0, slow_send)] (initial 100)) calm - t0))) ->
      (t0 + (ts fields_t1 - s0) <= at_time)%Q.
Proof.
  assert (Hcalm : env_ok calm) by (repeat split; vm_compute; discriminate).
  assert (Hrow : parse_row row_t1 = inr fields_t1) by (vm_compute; reflexivity).
  split; [exact Hcalm|]. split; [exact Hrow|].
  destruct (C1_wait_against_baseline_no_early_send 100
              [(row_t0, slow_send)] [] row_t1 calm fields_t1 Hcalm Hrow)
    as (s0 & t0 & Hb & _ & _ & Hsent).
  exists s0, t0. split; [exact Hb | exact Hsent].
Defined.

(** C1, the claim as stated fails: when a frame goes out late, the next
    one is still sent on its own deadline, and the gap between the two is
    smaller than the difference of their timestamps. Here the sleep before
    the frame stamped 1 s lasts a quarter of a second too long; the frame
    stamped 1.5 s follows it after a quarter of a second, not half a
    second. *)
Lemma C1_gap_counterexample :
  let rows := [(row_t0, calm); (row_t1, jitter); (row_t2, calm)] in
  Forall env_ok rows.*2 /\
  timestamps rows = [0 # 1000000; 1000000 # 1000000; 1500000 # 1000000] /\
  map Qred (send_times (trace (run rows (initial 100)))) =
    [100 # 1; 405 # 4; 203 # 2] /\
  ~ gaps_respected (timestamps rows)
      (send_times (trace (run rows (initial 100)))).
Proof.
  cbv zeta. split; [|split; [|split]].
  - repeat constructor; vm_compute; discriminate.
  - vm_compute; reflexivity.
  - vm_compute; reflexivity.
  - vm_compute. intros (_ & H & _). apply H. reflexivity.
Qed.

End Timing.

(** ** The handler of the loop *)

Section Handler.
Import Py Replay Step StepFacts Samples.


End Handler.

(** ** The fields of a row and the payload *)

Section Payload.
Import Py Replay Step StepFacts Samples Spec.

(** What a row that parses holds, statement by statement. *)
Lemma parse_row_inv row f :
  parse_row row = inr f ->
  exists c_ts us c_id c_len c_ext,
    row !! "Time Stamp" = Some c_ts /\ int 10 c_ts = inr us /\
    ts f = (inject_Z us / 1000000)%Q /\
    row !! "ID" = Some c_id /\ int 16 c_id = inr (canid f) /\
    row !! "LEN" = Some c_len /\ int 10 c_len = inr (dlc f) /\
    row !! "Extended" = Some (Some c_ext) /\
    is_extended f = String.eqb (lower c_ext) "true" /\
    collect row 1 (Z.to_nat (dlc f)) [] = inr (data_bytes f).
Proof.
  unfold parse_row, getitem, ebind. intros H.
  destruct (row !! "Time Stamp") as [c_ts|]; [|discriminate].
  destruct (int 10 c_ts) as [|us] eqn:Hus; [discriminate|].
  destruct (row !! "ID") as [c_id|]; [|discriminate].
  destruct (int 16 c_id) as [|id] eqn:Hid; [discriminate|].
  destruct (row !! "LEN") as [c_len|]; [|discriminate].
  destruct (int 10 c_len) as [|len] eqn:Hlen; [discriminate|].
  destruct (row !! "Extended") as [[c_ext|]|]; cbn in H; try discriminate.
  destruct (collect row 1 (Z.to_nat len) []) as [|bs] eqn:Hbs; [discriminate|].
  injection H as <-. cbn.
  exists c_ts, us, c_id, c_len, c_ext. repeat split; assumption.
Qed.

Lemma seqZ_succ (i : Z) (n : nat) :
  seqZ i (Z.of_nat (S n)) = i :: seqZ (i + 1) (Z.of_nat n).
Proof.
  rewrite seqZ_cons by lia. f_equal. f_equal; lia.
Qed.

(** The loop over the data sub-fields: the values appended are those of
    the non-empty sub-fields, in order, and every column it looks up is
    there. *)
Lemma collect_spec row n : forall i acc l,
  collect row i n acc = inr l ->
  exists l',
    l = (acc ++ l')%list /\
    Forall2 hex_of
      (filter (fun s => s <> "") (omap (subfield row) (seqZ i (Z.of_nat n)))) l' /\
    Forall (fun j => is_Some (row !! data_key j)) (seqZ i (Z.of_nat n)).
Proof.
  induction n as [|n IH]; intros i acc l H.
  - cbn in H. injection H as <-. exists []. rewrite app_nil_r.
    repeat split; constructor.
  - rewrite seqZ_succ. cbn [collect] in H.
    unfold getitem, ebind in H. fold (data_key i) in H.
    destruct (row !! data_key i) as [cell|] eqn:Hcell; [|discriminate].
    assert (Hkey : is_Some (row !! data_key i)) by (rewrite Hcell; eauto).
    cbn [omap list_omap]. unfold subfield at 1. rewrite Hcell. cbn [mjoin option_join].
    destruct cell as [s|]; cbn [truthy] in H.
    + destruct s as [|c s].
      * destruct (IH _ _ _ H) as (l' & -> & Hall & Hkeys).
        exists l'. split; [reflexivity|]. split; [|now constructor].
        rewrite filter_cons_False by (intros Hne; now apply Hne). exact Hall.
      * unfold int in H.
        destruct (parse_int 16 (String c s)) as [b|] eqn:Hb; [|discriminate].
        destruct (IH _ _ _ H) as (l' & -> & Hall & Hkeys).
        exists (b :: l'). split; [now rewrite <- app_assoc|].
        split; [|now constructor].
        rewrite filter_cons_True by discriminate. now constructor.
    + destruct (IH _ _ _ H) as (l' & -> & Hall & Hkeys).
      exists l'. split; [reflexivity|]. split; [exact Hall | now constructor].
Qed.

Lemma seqZ_to_nat (m n : Z) : seqZ m (Z.of_nat (Z.to_nat n)) = seqZ m n.
Proof. unfold seqZ. now rewrite Nat2Z.id. Qed.

Lemma data_bytes_spec row f :
  parse_row row = inr f ->
  Forall2 hex_of (nonempty_subfields row (dlc f)) (data_bytes f) /\
  Forall (fun j => is_Some (row !! data_key j)) (seqZ 1 (dlc f)).
Proof.
  intros H. apply parse_row_inv in H
    as (c_ts & us & c_id & c_len & c_ext & _ & _ & _ & _ & _ & _ & _ & _ & _ & H).
  apply collect_spec in H as (l' & Hl & Hall & Hkeys).
  rewrite seqZ_to_nat in Hall, Hkeys. cbn in Hl. subst l'.
  split; assumption.
Qed.

Lemma length_filter_le {A} (P : A -> Prop) `{forall x, Decision (P x)} (l : list A) :
  (length (filter P l) <= length l)%nat.
Proof.
  induction l as [|x l IH]; [cbn; lia|].
  rewrite filter_cons. destruct (decide (P x)); cbn; lia.
Qed.

Lemma length_omap_le {A B} (g : A -> option B) (l : list A) :
  (length (omap g l) <= length l)%nat.
Proof.
  induction l as [|x l IH]; cbn; [lia|]. destruct (g x); cbn; lia.
Qed.

Lemma length_nonempty_subfields row len :
  (length (nonempty_subfields row len) <= Z.to_nat len)%nat.
Proof.
  unfold nonempty_subfields.
  etransitivity; [apply length_filter_le|].
  etransitivity; [apply length_omap_le|]. now rewrite length_seqZ.
Qed.

(** [bytes] succeeds exactly on the lists of integers of the byte range,
    and keeps every value. *)
Lemma bytes_values l payload :
  bytes l = inr payload -> byte_value <$> payload = l.
Proof.
  revert payload. induction l as [|z l IH]; intros payload H; cbn in H.
  - now injection H as <-.
  - destruct (0 <=? z) eqn:Hz; [|discriminate].
    destruct (Byte.of_N (Z.to_N z)) as [b|] eqn:Hb; [|discriminate].
    destruct (bytes l) as [|bs]; [discriminate|]. injection H as <-.
    cbn. rewrite (IH bs eq_refl). f_equal.
    unfold byte_value. apply Byte.to_of_N in Hb. rewrite Hb.
    apply Z.leb_le in Hz. lia.
Qed.


(** C6: the payload collected for a row that parses is the list of its
    non-empty data sub-fields D1..D<LEN>, in field order, each read as a
    hexadecimal integer; empty sub-fields are left out, so it has at most
    LEN elements, and the bytes of the frame are these values. *)
Theorem C6_payload_is_nonempty_subfields (row : Row) (f : Fields) :
  parse_row row = inr f ->
  Forall2 hex_of (nonempty_subfields row (dlc f)) (data_bytes f) /\
  (length (data_bytes f) <= Z.to_nat (dlc f))%nat /\
  forall payload,
    bytes (data_bytes f) = inr payload -> byte_value <$> payload = data_bytes f.
Proof.
  intros H. destruct (data_bytes_spec row f H) as [Hall _].
  split; [exact Hall|]. split.
  - rewrite <- (Forall2_length _ _ _ Hall). apply length_nonempty_subfields.
  - intros payload. apply bytes_values.
Qed.

Lemma C6_payload_is_nonempty_subfields_witness :
  parse_row row_a = inr fields_a /\
  row_a !! "LEN" = Some (Some "3") /\
  row_a !! "D2" = Some (Some "") /\
  nonempty_subfields row_a 3 = ["0a"; "FF"] /\
  data_bytes fields_a = [10; 255] /\
  Forall2 hex_of (nonempty_subfields row_a (dlc fields_a)) (data_bytes fields_a).
Proof.
  assert (H : parse_row row_a = inr fields_a) by (vm_compute; reflexivity).
  split; [exact H|]. repeat (split; [vm_compute; reflexivity|]).
  apply (C6_payload_is_nonempty_subfields row_a fields_a H).
Defined.

End Payload.

(** ** What is transmitted *)

Section Transmission.
Import Py Replay Step StepFacts Samples Spec.

Lemma last_two {A} (l : list A) (x y : A) : last (l ++ [x; y]) = Some y.
Proof.
  change [x; y] with ([x] ++ [y])%list. rewrite app_assoc. apply last_snoc.
Qed.

(** A round that transmits a frame: the row parsed, its values made a
    payload, the transport accepted it, and the confirmation is the last
    event. *)
Lemma round_sent row env st at_time m :
  paired st ->
  Sent at_time m ∈ trace (process_row row env st) ->
  Sent at_time m ∉ trace st ->
  exists f payload,
    parse_row row = inr f /\
    bytes (data_bytes f) = inr payload /\
    send_raises env = None /\
    m = {| arbitration_id := canid f; data := payload;
           is_extended_id := is_extended f |} /\
    last (trace (process_row row env st)) =
      Some (Printed (SentLine (sent_line f))).
Proof.
  intros Hp Hin Hold. destruct (parse_row row) as [e|f] eqn:Hr.
  - rewrite (round_malformed _ _ _ _ Hr) in Hin. cbn [trace] in Hin.
    apply elem_of_app in Hin as [Hin|Hin]; [contradiction|].
    apply list_elem_of_singleton in Hin. discriminate.
  - destruct (round_parsed row env st f Hp Hr) as (s0 & t0 & _ & _ & _ & Htr).
    cbv zeta in Htr. rewrite Htr in Hin |- *.
    apply elem_of_app in Hin as [Hin|Hin]; [contradiction|].
    apply elem_of_app in Hin as [Hin|Hin];
      [now apply no_sent_in_sleep_events in Hin|].
    unfold outcome in Hin |- *.
    destruct (bytes (data_bytes f)) as [e|payload] eqn:Hbytes.
    { apply list_elem_of_singleton in Hin. discriminate. }
    destruct (send_raises env) as [e|] eqn:Hsend.
    { apply list_elem_of_singleton in Hin. discriminate. }
    apply elem_of_cons in Hin as [Hin|Hin].
    2:{ apply list_elem_of_singleton in Hin. discriminate. }
    injection Hin as _ ->. exists f, payload.
    repeat (split; [first [reflexivity | exact Hbytes]|]).
    rewrite app_assoc. apply last_two.
Qed.

(** C8, as amended: LEN is not checked against 0..8. A record that is
    sent has the integer its LEN field parses to as declared length,
    whatever its value; the columns D1..D<LEN> all exist in its row, and
    its payload has at most max(0, LEN) bytes. *)
Theorem C8_declared_length_not_range_checked
    (c0 : Q) (pre : list (Row * Env)) (row : Row) (env : Env)
    (at_time : Q) (m : Message) :
  let st := run pre (initial c0) in
  Sent at_time m ∈ trace (process_row row env st) ->
  Sent at_time m ∉ trace st ->
  exists f c_len,
    parse_row row = inr f /\
    row !! "LEN" = Some c_len /\ int 10 c_len = inr (dlc f) /\
    Forall (fun j => is_Some (row !! data_key j)) (seqZ 1 (dlc f)) /\
    (Z.of_nat (length (data m)) <= Z.max 0 (dlc f)) /\
    last (trace (process_row row env st)) =
      Some (Printed (SentLine (sent_line f))).
Proof.
  intros st Hin Hold.
  assert (Hp : paired st) by apply paired_run, paired_initial.
  destruct (round_sent row env st at_time m Hp Hin Hold)
    as (f & payload & Hr & Hbytes & _ & -> & Hlast).
  destruct (parse_row_inv row f Hr)
    as (c_ts & us & c_id & c_len & c_ext & _ & _ & _ & _ & _ & Hlen & Hdlc & _).
  destruct (data_bytes_spec row f Hr) as [Hall Hkeys].
  exists f, c_len. repeat (split; [assumption|]). split; [|exact Hlast].
  cbn [data]. apply bytes_values in Hbytes.
  assert (Hl : length payload = length (data_bytes f))
    by now rewrite <- Hbytes, length_fmap.
  pose proof (length_nonempty_subfields row (dlc f)) as Hle.
  rewrite (Forall2_length _ _ _ Hall) in Hle. lia.
Qed.

Lemma C8_declared_length_not_range_checked_witness :
  (Sent (100 + 0 + 0 + 0)%Q
     {| arbitration_id := 256; data := []; is_extended_id := false |}
     ∈ trace (process_row row_neg calm (run [] (initial 100)))) /\
  (Sent (100 + 0 + 0 + 0)%Q
     {| arbitration_id := 256; data := []; is_extended_id := false |}
     ∉ trace (run [] (initial 100))) /\
  exists f c_len,
    parse_row row_neg = inr f /\
    row_neg !! "LEN" = Some c_len /\ int 10 c_len = inr (dlc f) /\
    last (trace (process_row row_neg calm (run [] (initial 100)))) =
      Some (Printed (SentLine (sent_line f))).
Proof.
  assert (Hin : Sent (100 + 0 + 0 + 0)%Q
            {| arbitration_id := 256; data := []; is_extended_id := false |}
            ∈ trace (process_row row_neg calm (run [] (initial 100)))).
  { vm_compute. apply list_elem_of_here. }
  assert (Hold : Sent (100 + 0 + 0 + 0)%Q
            {| arbitration_id := 256; data := []; is_extended_id := false |}
            ∉ trace (run [] (initial 100))).
  { cbn. apply not_elem_of_nil. }
  split; [exact Hin|]. split; [exact Hold|].
  destruct (C8_declared_length_not_range_checked 100 [] row_neg calm _ _
              Hin Hold) as (f & c_len & H1 & H2 & H3 & _ & _ & H4).
  exists f, c_len. repeat split; assumption.
Defined.

(** C8, the claim as stated fails: a row whose LEN is -1 is sent, with an
    empty payload, and its confirmation shows the declared length -1. *)
Lemma C8_length_range_counterexample :
  parse_row row_neg = inr fields_neg /\
  dlc fields_neg = -1 /\
  ~ (0 <= dlc fields_neg <= 8) /\
  send_times (trace (run [(row_neg, calm)] (initial 100))) <> [] /\
  last (trace (run [(row_neg, calm)] (initial 100))) =
    Some (Printed (SentLine "Sent t=0.000000s ID=0x100 DLC=-1 Data=")).
Proof.
  split; [vm_compute; reflexivity|]. split; [reflexivity|].
  split; [cbn; lia|]. split; [vm_compute; discriminate|].
  vm_compute; reflexivity.
Qed.



End Transmission.

(** ** The Extended field *)

Section Extended.
Import Py Replay Step StepFacts Samples Spec.

Lemma lower_char_t c : Ascii.eqb (lower_char c) "t" = same_letter c "t".
Proof. destruct c as [[] [] [] [] [] [] [] []]; reflexivity. Qed.

Lemma lower_char_r c : Ascii.eqb (lower_char c) "r" = same_letter c "r".
Proof. destruct c as [[] [] [] [] [] [] [] []]; reflexivity. Qed.

Lemma lower_char_u c : Ascii.eqb (lower_char c) "u" = same_letter c "u".
Proof. destruct c as [[] [] [] [] [] [] [] []]; reflexivity. Qed.

Lemma lower_char_e c : Ascii.eqb (lower_char c) "e" = same_letter c "e".
Proof. destruct c as [[] [] [] [] [] [] [] []]; reflexivity. Qed.

(** [s.lower() == "true"] is the case-insensitive comparison with the
    literal. *)
Lemma lower_is_true s :
  String.eqb (lower s) "true" = equal_ignoring_case s "true".
Proof.
  destruct s as [|c1 [|c2 [|c3 [|c4 [|c5 s]]]]];
    cbn [lower String.eqb equal_ignoring_case];
    rewrite ?lower_char_t, ?lower_char_r, ?lower_char_u, ?lower_char_e;
    repeat match goal with
      | |- context [same_letter ?a ?b] => destruct (same_letter a b)
      end; reflexivity.
Qed.

(** The data loop does not look at the Extended column. *)
Lemma data_key_not_extended i : "Extended" <> data_key i.
Proof. unfold data_key. cbn. discriminate. Qed.

Lemma collect_other_extended row cell n : forall i acc,
  collect (<["Extended" := cell]> row) i n acc = collect row i n acc.
Proof.
  induction n as [|n IH]; intros i acc; [reflexivity|].
  cbn [collect]. unfold getitem, ebind. fold (data_key i).
  rewrite lookup_insert_ne by apply data_key_not_extended.
  destruct (row !! data_key i) as [c|]; [|reflexivity].
  destruct (truthy c); [|apply IH].
  destruct (int 16 c); [reflexivity | apply IH].
Qed.

(** C7: is_extended is true exactly when the Extended field compares
    equal, case-insensitively, to the text "true"; with any other text in
    that field the row parses as well, to the same values, and is_extended
    is false. *)
Theorem C7_extended_only_for_true (row : Row) (f : Fields) :
  parse_row row = inr f ->
  exists s,
    row !! "Extended" = Some (Some s) /\
    is_extended f = equal_ignoring_case s "true" /\
    forall s',
      parse_row (<["Extended" := Some s']> row) =
      inr {| ts := ts f; canid := canid f; dlc := dlc f;
             is_extended := equal_ignoring_case s' "true";
             data_bytes := data_bytes f |}.
Proof.
  intros H. destruct (parse_row_inv row f H)
    as (c_ts & us & c_id & c_len & s & Hts & Hus & Hf & Hid & Hcan & Hlen
        & Hdlc & Hext & His & Hcol).
  exists s. split; [exact Hext|]. split; [now rewrite His, lower_is_true|].
  intros s'. unfold parse_row, getitem, ebind.
  rewrite !lookup_insert_ne by discriminate.
  rewrite Hts, Hus, Hid, Hcan, Hlen, Hdlc, lookup_insert_eq.
  cbn [cell_lower]. rewrite collect_other_extended, Hcol.
  now rewrite lower_is_true, Hf.
Qed.

Lemma C7_extended_only_for_true_witness :
  parse_row row_a = inr fields_a /\
  row_a !! "Extended" = Some (Some "True") /\
  is_extended fields_a = true /\
  exists s,
    row_a !! "Extended" = Some (Some s) /\
    is_extended fields_a = equal_ignoring_case s "true" /\
    parse_row (<["Extended" := Some "yes"]> row_a) =
      inr {| ts := ts fields_a; canid := canid fields_a; dlc := dlc fields_a;
             is_extended := false; data_bytes := data_bytes fields_a |}.
Proof.
  assert (H : parse_row row_a = inr fields_a) by (vm_compute; reflexivity).
  split; [exact H|]. split; [vm_compute; reflexivity|].
  split; [reflexivity|].
  destruct (C7_extended_only_for_true row_a fields_a H) as (s & H1 & H2 & H3).
  exists s. split; [exact H1|]. split; [exact H2|]. apply (H3 "yes").
Defined.

End Extended.

(** ** The confirmation line *)

Section Confirmation.
Import Py Replay Step StepFacts Samples Spec.

(** A property checked on every natural number below a bound. *)
Lemma below_cases (P : N -> bool) (k : nat) :
  forallb P (map N.of_nat (seq 0 k)) = true ->
  forall d, (d < N.of_nat k)%N -> P d = true.
Proof.
  intros Hall d Hd. rewrite forallb_forall in Hall. apply Hall.
  apply in_map_iff. exists (N.to_nat d). split; [apply N2Nat.id|].
  apply in_seq. lia.
Qed.

Lemma upper_digit_char d : (d < 36)%N -> upper_digit (digit_char d) = Some d.
Proof.
  intros Hd.
  pose proof (below_cases
    (fun d => match upper_digit (digit_char d) with
              | Some d' => (d' =? d)%N
              | None => false
              end) 36 eq_refl d Hd) as H.
  cbv beta in H. destruct (upper_digit (digit_char d)) as [d'|]; [|discriminate].
  apply N.eqb_eq in H. now subst.
Qed.

(** Reading back the digits that [digits_of] writes. *)
Lemma number_of_digits_of base : (2 <= base <= 36)%N ->
  forall fuel n s,
    (N.to_nat (N.log2 n) <= fuel)%nat ->
    number_of base 0 (digits_of fuel base n s) = number_of base n s.
Proof.
  intros Hbase.
  assert (Hstep : forall n s,
    number_of base 0 (String (digit_char (n mod base)) s) =
    number_of base (n mod base) s).
  { intros n s. cbn [number_of].
    assert (Hm : (n mod base < base)%N) by (apply N.mod_lt; lia).
    rewrite upper_digit_char by lia.
    apply N.ltb_lt in Hm. now rewrite Hm. }
  assert (Hnext : forall a n s,
    number_of base a (String (digit_char (n mod base)) s) =
    number_of base (a * base + n mod base) s).
  { intros a n s. cbn [number_of].
    assert (Hm : (n mod base < base)%N) by (apply N.mod_lt; lia).
    rewrite upper_digit_char by lia.
    apply N.ltb_lt in Hm. now rewrite Hm. }
  induction fuel as [|fuel IH]; intros n s Hfuel.
  - cbn [digits_of]. rewrite Hstep.
    assert (Hn : (n < base)%N).
    { destruct (N.eq_dec n 0%N) as [->|Hn0]; [lia|].
      assert (H : N.log2 n = 0%N) by lia.
      pose proof (N.log2_spec n ltac:(lia)) as Hs. rewrite H in Hs. cbn in Hs. lia. }
    now rewrite N.mod_small.
  - cbn [digits_of]. destruct (n / base =? 0)%N eqn:Hq.
    + apply N.eqb_eq in Hq. rewrite Hstep.
      assert (Hn : (n < base)%N) by (apply N.div_small_iff in Hq; lia).
      now rewrite N.mod_small.
    + apply N.eqb_neq in Hq. rewrite IH.
      * rewrite Hnext. f_equal.
        rewrite (N.div_mod n base) at 3 by lia. lia.
      * assert (Hge : (base <= n)%N).
        { destruct (N.lt_ge_cases n base) as [Hlt|]; [|assumption].
          apply N.div_small in Hlt. contradiction. }
        assert (Hhalf : (n / base <= N.div2 n)%N).
        { rewrite N.div2_div. apply N.div_le_compat_l. lia. }
        apply N.log2_le_mono in Hhalf.
        rewrite N.div2_spec, N.log2_shiftr in Hhalf.
        assert (1 <= N.log2 n)%N.
        { change 1%N with (N.log2 2). apply N.log2_le_mono. lia. }
        lia.
Qed.

Lemma digits_of_nonempty fuel base n s : digits_of fuel base n s <> "".
Proof.
  revert n s. induction fuel as [|fuel IH]; intros n s; cbn [digits_of].
  - discriminate.
  - destruct (n / base =? 0)%N; [discriminate | apply IH].
Qed.

Lemma to_digits_denotes base n :
  (2 <= base <= 36)%N -> denotes base (to_digits base n) n.
Proof.
  intros Hbase. split; [apply digits_of_nonempty|].
  unfold to_digits. now rewrite number_of_digits_of by (assumption || lia).
Qed.

(** A number below [base ^ k] is written with [k] digits at most. *)
Lemma length_digits_of base : (2 <= base)%N ->
  forall fuel k n s,
    (1 <= k)%nat -> (n < base ^ N.of_nat k)%N ->
    (String.length (digits_of fuel base n s) <= k + String.length s)%nat.
Proof.
  intros Hbase. induction fuel as [|fuel IH]; intros k n s Hk Hn.
  - cbn. lia.
  - cbn [digits_of]. destruct (n / base =? 0)%N eqn:Hq; [cbn; lia|].
    apply N.eqb_neq in Hq.
    assert (Hge : (base <= n)%N).
    { destruct (N.lt_ge_cases n base) as [Hlt|]; [|assumption].
      apply N.div_small in Hlt. contradiction. }
    destruct k as [|[|k]]; [lia| |].
    + cbn in Hn. rewrite N.pow_1_r in Hn. lia.
    + specialize (IH (S k) (n / base)%N
                     (String (digit_char (n mod base)) s)).
      cbn [String.length] in IH. etransitivity; [apply IH|]; [lia| |lia].
      apply N.Div0.div_lt_upper_bound.
      replace (N.of_nat (S (S k))) with (N.succ (N.of_nat (S k))) in Hn by lia.
      now rewrite N.pow_succ_r' in Hn.
Qed.

Lemma length_zeros k : String.length (zeros k) = k.
Proof. induction k as [|k IH]; cbn; [reflexivity | now rewrite IH]. Qed.

Lemma string_length_app (s t : string) :
  String.length (s ++ t) = (String.length s + String.length t)%nat.
Proof.
  induction s as [|c s IH]; [reflexivity|].
  change (String c s ++ t) with (String c (s ++ t)).
  cbn [String.length]. now rewrite IH.
Qed.

Lemma number_of_zeros base k s :
  (0 < base)%N -> number_of base 0 (zeros k ++ s) = number_of base 0 s.
Proof.
  intros Hbase. induction k as [|k IH]; [reflexivity|].
  change (zeros (S k) ++ s) with (String "0" (zeros k ++ s)).
  cbn [number_of]. change (upper_digit "0") with (Some 0%N). cbv iota beta.
  apply N.ltb_lt in Hbase. rewrite Hbase.
  replace (0 * base + 0)%N with 0%N by lia. exact IH.
Qed.

Lemma round_half_even_exact a d : (0 < d)%N -> round_half_even (a * d) d = a.
Proof.
  intros Hd. unfold round_half_even.
  rewrite N.Div0.mod_mul, N.div_mul by lia.
  replace (2 * 0 <? d)%N with true; [reflexivity|].
  symmetry. apply N.ltb_lt. lia.
Qed.

(** The timestamp of a record, a whole number of microseconds, printed
    with six decimals: nothing is rounded away. *)
Lemma format_6f_microseconds us :
  format_6f (inject_Z us / 1000000) =
  sign_of us ++ to_digits 10 (Z.abs_N us / 1000000) ++ "." ++
  zfill 6 (to_digits 10 (Z.abs_N us mod 1000000)).
Proof.
  unfold format_6f.
  replace (Qnum (inject_Z us / 1000000)) with us
    by (cbn; now rewrite Z.mul_1_r).
  change (Qden (inject_Z us / 1000000)) with 1000000%positive.
  change (N.pos 1000000) with 1000000%N.
  now rewrite round_half_even_exact.
Qed.

Lemma six_decimals m :
  (m < 1000000)%N ->
  String.length (zfill 6 (to_digits 10 m)) = 6%nat /\
  denotes 10 (zfill 6 (to_digits 10 m)) m.
Proof.
  intros Hm.
  assert (Hlen : (1 <= String.length (to_digits 10 m) <= 6)%nat).
  { split.
    - pose proof (digits_of_nonempty (N.to_nat (N.log2 m)) 10 m "") as Hne.
      unfold to_digits. destruct (digits_of _ _ _ _); [contradiction | cbn; lia].
    - unfold to_digits.
      pose proof (length_digits_of 10 ltac:(lia) (N.to_nat (N.log2 m)) 6 m ""
                    ltac:(lia) Hm) as H. cbn [String.length] in H. lia. }
  assert (Hval : number_of 10 0 (zfill 6 (to_digits 10 m)) = Some m).
  { unfold zfill. rewrite number_of_zeros by lia.
    apply to_digits_denotes. lia. }
  unfold zfill in *. repeat split.
  - rewrite string_length_app, length_zeros. lia.
  - intros Hempty.
    assert (Hl : String.length
              (zeros (6 - String.length (to_digits 10 m)) ++ to_digits 10 m)
            = 0%nat) by now rewrite Hempty.
    rewrite string_length_app, length_zeros in Hl. lia.
  - exact Hval.
Qed.

(** A byte printed with [02X]: two upper-case hexadecimal digits. *)
Lemma two_hex_digits b :
  0 <= b < 256 ->
  String.length (format_02X b) = 2%nat /\ denotes 16 (format_02X b) (Z.to_N b).
Proof.
  intros Hb.
  pose proof (below_cases
    (fun n => let s := format_02X (Z.of_N n) in
              (String.length s =? 2)%nat &&
              negb (String.eqb s "") &&
              match number_of 16 0 s with
              | Some v => (v =? n)%N
              | None => false
              end) 256 ltac:(vm_compute; reflexivity) (Z.to_N b) ltac:(lia)) as H.
  cbv beta zeta in H. rewrite Z2N.id in H by lia.
  apply andb_prop in H as [H H3]. apply andb_prop in H as [H1 H2].
  apply Nat.eqb_eq in H1. apply negb_true_iff, String.eqb_neq in H2.
  destruct (number_of 16 0 (format_02X b)) as [v|] eqn:Hv; [|discriminate].
  apply N.eqb_eq in H3. subst v. repeat split; assumption.
Qed.

Lemma bytes_in_range l payload :
  bytes l = inr payload -> Forall (fun z => 0 <= z < 256) l.
Proof.
  intros H. apply bytes_values in H. subst l.
  apply Forall_fmap, Forall_forall. intros b _. unfold byte_value. cbn.
  pose proof (Byte.to_N_bounded b). lia.
Qed.

(** C5, the claim as stated fails: the t= value is not the time since the
    first record. In a log with frames stamped 5 s and 6.5 s the second
    line shows 6.500000, where the elapsed capture time is 1.500000. *)
Lemma C5_elapsed_time_counterexample :
  let final := run [(row_a, calm); (row_b, calm)] (initial 100) in
  start_ts final = Some (ts fields_a) /\
  parse_row row_b = inr fields_b /\
  last (trace final) =
    Some (Printed (SentLine "Sent t=6.500000s ID=0x7FF DLC=2 Data=01 02")) /\
  line_with_elapsed_time fields_b (ts fields_a) =
    "Sent t=1.500000s ID=0x7FF DLC=2 Data=01 02" /\
  last (trace final) <>
    Some (Printed (SentLine (line_with_elapsed_time fields_b (ts fields_a)))).
Proof.
  cbv zeta. repeat split; try (vm_compute; reflexivity).
  vm_compute. discriminate.
Qed.

End Confirmation.

(** ** Frames, lines and sleeps of a trace *)

Section TraceLists.
Import Py Replay Step Log.

Lemma sent_messages_app tr1 tr2 :
  sent_messages (tr1 ++ tr2) = (sent_messages tr1 ++ sent_messages tr2)%list.
Proof.
  induction tr1 as [|[w|t m|o] tr1 IH]; cbn; [reflexivity| | |];
    now rewrite IH.
Qed.

Lemma printed_lines_app tr1 tr2 :
  printed_lines (tr1 ++ tr2) = (printed_lines tr1 ++ printed_lines tr2)%list.
Proof.
  induction tr1 as [|[w|t m|o] tr1 IH]; cbn; [reflexivity| | |];
    now rewrite IH.
Qed.

Lemma sleeps_app tr1 tr2 :
  sleeps (tr1 ++ tr2) = (sleeps tr1 ++ sleeps tr2)%list.
Proof.
  induction tr1 as [|[w|t m|o] tr1 IH]; cbn; [reflexivity| | |];
    now rewrite IH.
Qed.

Lemma send_times_app tr1 tr2 :
  send_times (tr1 ++ tr2) = (send_times tr1 ++ send_times tr2)%list.
Proof.
  induction tr1 as [|[w|t m|o] tr1 IH]; cbn; [reflexivity| | |];
    now rewrite IH.
Qed.

End TraceLists.

(** ** The loop with faults, round by round *)

Module FaultFacts.
Import Py Replay Step StepFacts Log.

(** A round of the loop with faults, in a state with paired baseline
    variables, is what the direct-style description says. *)
Lemma process_row_spec row world st :
  paired st ->
  Faults.process_row row world st =
  ({| start_ts := fst (Faults.round_baseline row world st);
      start_time := snd (Faults.round_baseline row world st);
      clock := Faults.round_clock row world st;
      trace := trace st ++ Faults.round_events row world st |},
   Faults.round_escape row world st).
Proof.
  intros [Hp1 Hp2].
  unfold Faults.process_row, Faults.round_baseline, Faults.round_clock,
    Faults.round_events, Faults.round_escape, Faults.body_failure,
    Faults.sleep_failure, Faults.failure_after_wait, Faults.report,
    Faults.body, round_wait, now_of, bind, lift.
  destruct (parse_row row) as [e|f].
  - destruct st as [s0 t0 c tr]; cbn.
    destruct (Faults.report_raises world); cbn; rewrite ?app_nil_r;
      reflexivity.
  - destruct st as [[s0|] [t0|] c tr]; cbn in *;
      try (specialize (Hp1 eq_refl); discriminate);
      try (specialize (Hp2 eq_refl); discriminate);
      unfold Faults.time_sleep, Faults.print, sleep_events, clock_after_wait,
        wait_time_of;
      repeat match goal with
        | |- context [Qpositive ?w] => destruct (Qpositive w); cbn
        | |- context [Faults.sleep_raises ?w] =>
            destruct (Faults.sleep_raises w); cbn
        | |- context [bytes ?l] => destruct (bytes l); cbn
        | |- context [send_raises ?e] => destruct (send_raises e); cbn
        | |- context [Faults.print_raises ?w] =>
            destruct (Faults.print_raises w); cbn
        | |- context [Faults.report_raises ?w] =>
            destruct (Faults.report_raises w); cbn
        end;
      rewrite <- ?app_assoc, ?app_nil_r; reflexivity.
Qed.

Lemma faulty_trace_round row world st :
  paired st ->
  trace (Faults.process_row row world st).1 =
  (trace st ++ Faults.round_events row world st)%list.
Proof. intros Hp. now rewrite (process_row_spec _ _ _ Hp). Qed.

Lemma baseline_round row world st :
  paired st ->
  baseline (Faults.process_row row world st).1 =
  Faults.round_baseline row world st.
Proof.
  intros Hp. rewrite (process_row_spec _ _ _ Hp). unfold baseline. cbn.
  now destruct (Faults.round_baseline row world st).
Qed.

Lemma faulty_paired_round row world st :
  paired st -> paired (Faults.process_row row world st).1.
Proof.
  intros Hp. rewrite (process_row_spec _ _ _ Hp). unfold paired. cbn.
  unfold Faults.round_baseline.
  destruct (parse_row row) as [e|f]; [exact Hp|].
  destruct (start_ts st) eqn:Hs; cbn; [|split; discriminate].
  unfold paired in Hp. now rewrite Hs in Hp.
Qed.

(** The states a run goes through have paired baseline variables. *)
Lemma faulty_paired_run rows : forall st st' esc,
  paired st -> Faults.run rows st = (st', esc) -> paired st'.
Proof.
  induction rows as [|[row world] rows IH]; intros st st' esc Hp Hrun.
  - cbn in Hrun. now injection Hrun as <- _.
  - cbn [Faults.run] in Hrun.
    pose proof (faulty_paired_round row world st Hp) as Hp1.
    destruct (Faults.process_row row world st) as [st1 [e|]].
    + now injection Hrun as <- _.
    + eapply IH; eassumption.
Qed.

Lemma reached_paired c0 pre st esc :
  Faults.run pre (initial c0) = (st, esc) -> paired st.
Proof. apply faulty_paired_run, paired_initial. Qed.

(** A run over two parts of a log. *)
Lemma faulty_run_app rows1 rows2 st :
  Faults.run (rows1 ++ rows2) st =
  match Faults.run rows1 st with
  | (st', None) => Faults.run rows2 st'
  | (st', Some e) => (st', Some e)
  end.
Proof.
  revert st. induction rows1 as [|[row world] rows1 IH]; intros st; cbn.
  - reflexivity.
  - destruct (Faults.process_row row world st) as [st1 [e|]];
      [reflexivity | apply IH].
Qed.

Lemma run_reached pre row world post c0 st :
  Faults.run pre (initial c0) = (st, None) ->
  Faults.run (pre ++ (row, world) :: post) (initial c0) =
  match Faults.process_row row world st with
  | (st', None) => Faults.run post st'
  | (st', Some e) => (st', Some e)
  end.
Proof. intros Hpre. now rewrite faulty_run_app, Hpre. Qed.

(** When the timer and the console work, the loop with faults is the
    loop of [Replay]. *)
Lemma faultless_round row world st :
  Faults.faultless world ->
  Faults.process_row row world st =
  (process_row row (Faults.env world) st, None).
Proof.
  intros (Hs & Hp & Hr). destruct world as [e s p r]. cbn in *. subst.
  unfold Faults.process_row, process_row.
  change (Faults.body row
            {| Faults.env := e; Faults.sleep_raises := None;
               Faults.print_raises := None; Faults.report_raises := None |})
    with (body row e).
  now destruct (body row e st) as [st' [x|[]]].
Qed.

Lemma faultless_run rows : forall st,
  Forall Faults.faultless rows.*2 ->
  Faults.run rows st = (run (Faults.envs_of rows) st, None).
Proof.
  induction rows as [|[row world] rows IH]; intros st Hall; [reflexivity|].
  cbn in Hall. apply Forall_cons in Hall as [Hw Hall].
  unfold Faults.envs_of.
  cbn [Faults.run fmap list_fmap prod_map run fst snd id].
  rewrite (faultless_round _ _ _ Hw). now apply IH.
Qed.

End FaultFacts.

(** ** The first record, the handler and the confirmation line, with
    faults *)

Section FaultyWorld.
Import Py Replay Step StepFacts Samples Spec Log FaultFacts.

(** What the body returns. *)
Lemma body_spec row world st :
  paired st ->
  snd (Faults.body row world st) =
  match Faults.body_failure row world st with
  | Some e => inl e
  | None => inr tt
  end.
Proof.
  intros [Hp1 Hp2].
  unfold Faults.body_failure, Faults.sleep_failure, Faults.failure_after_wait,
    Faults.body, round_wait, now_of, bind, lift.
  destruct (parse_row row) as [e|f]; [reflexivity|].
  destruct st as [[s0|] [t0|] c tr]; cbn in *;
    try (specialize (Hp1 eq_refl); discriminate);
    try (specialize (Hp2 eq_refl); discriminate);
    unfold Faults.time_sleep, Faults.print, wait_time_of;
    repeat match goal with
      | |- context [Qpositive ?w] => destruct (Qpositive w); cbn
      | |- context [Faults.sleep_raises ?w] =>
          destruct (Faults.sleep_raises w); cbn
      | |- context [bytes ?l] => destruct (bytes l); cbn
      | |- context [send_raises ?e] => destruct (send_raises e); cbn
      | |- context [Faults.print_raises ?w] =>
          destruct (Faults.print_raises w); cbn
      end; reflexivity.
Qed.

(** While no row parses, the baseline and the clock stay, and nothing is
    sent or waited for. *)
Lemma run_only_malformed pre : forall st0 st esc,
  paired st0 ->
  Faults.run pre st0 = (st, esc) ->
  forallb (fun rw => malformed rw.1) pre = true ->
  baseline st = baseline st0 /\ clock st = clock st0 /\
  exists evs, trace st = (trace st0 ++ evs)%list /\
              sleeps evs = [] /\ sent_messages evs = [].
Proof.
  induction pre as [|[row world] pre IH]; intros st0 st esc Hp Hrun Hall.
  - cbn in Hrun. injection Hrun as <- _. repeat split.
    exists []. now rewrite app_nil_r.
  - cbn in Hall. apply andb_prop in Hall as [Hm Hall].
    unfold malformed in Hm. cbn in Hm.
    destruct (parse_row row) as [e|f] eqn:Hr; [|discriminate].
    cbn [Faults.run] in Hrun.
    pose proof (process_row_spec row world st0 Hp) as Hspec.
    pose proof (faulty_paired_round row world st0 Hp) as Hp1.
    unfold Faults.round_baseline, Faults.round_clock, Faults.round_events,
      Faults.report in Hspec. rewrite Hr in Hspec.
    destruct (Faults.process_row row world st0) as [st1 esc1].
    injection Hspec as Hst1 Hesc1.
    assert (Hone : baseline st1 = baseline st0 /\ clock st1 = clock st0 /\
              exists evs, trace st1 = (trace st0 ++ evs)%list /\
                          sleeps evs = [] /\ sent_messages evs = []).
    { rewrite Hst1. unfold baseline. cbn. repeat split.
      eexists. split; [reflexivity|].
      now destruct (Faults.report_raises world). }
    destruct esc1 as [e1|].
    + injection Hrun as <- _. exact Hone.
    + destruct (IH st1 st esc Hp1 Hrun Hall) as (Hb & Hc & evs & Htr & Hs & Hm').
      destruct Hone as (Hb1 & Hc1 & evs1 & Htr1 & Hs1 & Hm1).
      split; [congruence|]. split; [congruence|].
      exists (evs1 ++ evs)%list. rewrite Htr, Htr1, <- app_assoc.
      split; [reflexivity|].
      now rewrite sleeps_app, sent_messages_app, Hs, Hs1, Hm', Hm1.
Qed.

Lemma frame_of_parts row e f m :
  parse_row row = inr f -> frame_of row e = Some m ->
  exists payload,
    bytes (data_bytes f) = inr payload /\ send_raises e = None /\
    m = {| arbitration_id := canid f; data := payload;
           is_extended_id := is_extended f |}.
Proof.
  intros Hr Hm. unfold frame_of in Hm. rewrite Hr in Hm.
  destruct (bytes (data_bytes f)) as [|payload]; [discriminate|].
  destruct (send_raises e); [discriminate|]. injection Hm as <-. eauto.
Qed.

(** C4, as amended: when the wall clock does not go back between the two
    readings of the round, the first row that parses has a wait_time that
    is not positive; [time.sleep] is not called, in that round or before
    it, and the frame, when the row gives one, is the first event of the
    round. *)
Theorem C4_first_record_not_delayed
    (c0 : Q) (pre : list (Row * Faults.World)) (st : State) (row : Row)
    (world : Faults.World) (f : Fields) :
  Faults.run pre (initial c0) = (st, None) ->
  forallb (fun rw => malformed rw.1) pre = true ->
  parse_row row = inr f ->
  (0 <= before_now (Faults.env world))%Q ->
  let e := Faults.env world in
  let t := (c0 + before_start e)%Q in
  let now := (t + before_now e)%Q in
  let st' := (Faults.process_row row world st).1 in
  ~ (0 < wait_time_of (ts f) (ts f) now t)%Q /\
  sleeps (trace st') = [] /\
  forall m,
    frame_of row e = Some m ->
    exists tail,
      trace st' = (trace st ++ Sent (now + before_send e)%Q m :: tail)%list.
Proof.
  intros Hrun Hpre Hr Hlag e t now st'.
  assert (Hp : paired st) by exact (reached_paired _ _ _ _ Hrun).
  destruct (run_only_malformed pre (initial c0) st None (paired_initial c0)
              Hrun Hpre) as (Hb & Hc & evs & Htr & Hs & _).
  unfold baseline in Hb. cbn in Hb, Hc, Htr. injection Hb as Hs0 Ht0.
  assert (Hw : (wait_time_of (ts f) (ts f) now t <= 0)%Q).
  { unfold wait_time_of, now, t, e. lra. }
  assert (Hwait : round_wait st e f = wait_time_of (ts f) (ts f) now t).
  { unfold round_wait, now_of. now rewrite Hs0, Hc. }
  assert (Hnow : now_of st e = now).
  { unfold now_of. now rewrite Hs0, Hc. }
  assert (Hev : trace st' = (trace st ++ Faults.round_events row world st)%list)
    by (apply faulty_trace_round; exact Hp).
  unfold Faults.round_events, Faults.sleep_failure in Hev. rewrite Hr in Hev.
  cbv zeta in Hev. fold e in Hev. rewrite Hwait, Hnow in Hev.
  unfold sleep_events, clock_after_wait in Hev.
  rewrite (not_positive_wait _ Hw) in Hev. cbn [app] in Hev.
  split; [lra|]. split.
  - rewrite Hev, sleeps_app, Htr, Hs. unfold Faults.report.
    destruct (bytes (data_bytes f)), (send_raises e),
      (Faults.print_raises world), (Faults.report_raises world); reflexivity.
  - intros m Hm.
    destruct (frame_of_parts row e f m Hr Hm) as (payload & Hbytes & Hsend & ->).
    rewrite Hbytes, Hsend in Hev. eexists. exact Hev.
Qed.

Lemma C4_first_record_not_delayed_witness :
  Faults.run [(row_bad_id, Faults.quiet calm)] (initial 100) =
    ({| start_ts := None; start_time := None; clock := 100;
        trace := [Printed (SkipLine (ValueError_int 16 "zz") row_bad_id)] |},
     None) /\
  parse_row row_a = inr fields_a /\
  (0 <= before_now (Faults.env (Faults.no_confirmation slow_send)))%Q /\
  sleeps (trace (Faults.process_row row_a (Faults.no_confirmation slow_send)
                   {| start_ts := None; start_time := None; clock := 100;
                      trace := [Printed (SkipLine (ValueError_int 16 "zz")
                                           row_bad_id)] |}).1) = [] /\
  exists tail,
    trace (Faults.process_row row_a (Faults.no_confirmation slow_send)
             {| start_ts := None; start_time := None; clock := 100;
                trace := [Printed (SkipLine (ValueError_int 16 "zz")
                                     row_bad_id)] |}).1 =
    ([Printed (SkipLine (ValueError_int 16 "zz") row_bad_id)] ++
     Sent (100 + 0 + 0 + (1 # 2))%Q
       {| arbitration_id := 419; data := [Byte.x0a; Byte.xff];
          is_extended_id := true |} :: tail)%list.
Proof.
  assert (H1 : Faults.run [(row_bad_id, Faults.quiet calm)] (initial 100) =
    ({| start_ts := None; start_time := None; clock := 100;
        trace := [Printed (SkipLine (ValueError_int 16 "zz") row_bad_id)] |},
     None)) by (vm_compute; reflexivity).
  assert (H2 : forallb (fun rw : Row * Faults.World => malformed rw.1)
                 [(row_bad_id, Faults.quiet calm)] = true)
    by (vm_compute; reflexivity).
  assert (H3 : parse_row row_a = inr fields_a) by (vm_compute; reflexivity).
  assert (H4 : (0 <= before_now (Faults.env (Faults.no_confirmation slow_send)))%Q)
    by (vm_compute; discriminate).
  destruct (C4_first_record_not_delayed 100 [(row_bad_id, Faults.quiet calm)]
              _ row_a (Faults.no_confirmation slow_send) fields_a H1 H2 H3 H4)
    as (_ & Hs & Hsent).
  split; [exact H1|]. split; [exact H3|]. split; [exact H4|].
  split; [exact Hs|]. apply Hsent. vm_compute. reflexivity.
Defined.

(** C4, the claim as stated fails: nothing in the construction keeps the
    wait of the first record from being positive. When the wall clock is
    set back half a second between the reading that gives start_time and
    the reading that gives now, the script sleeps half a second before it
    sends the first frame. *)
Lemma C4_clock_set_back_counterexample :
  let world := Faults.quiet Faults.clock_set_back in
  let final := (Faults.run [(row_a, world)] (initial 100)).1 in
  parse_row row_a = inr fields_a /\
  map Qred (sleeps (trace final)) = [1 # 2] /\
  exists w at_time m line,
    trace final = [Slept w; Sent at_time m; Printed line].
Proof.
  cbv zeta. split; [vm_compute; reflexivity|].
  split; [vm_compute; reflexivity|].
  eexists _, _, _, _. vm_compute. reflexivity.
Qed.

(** The events of a round whose body raises: what came before the
    exception, then the report. *)
Lemma events_of_failure row world st e sent :
  Faults.raised_by row world st e sent ->
  Faults.body_failure row world st = Some e /\
  exists evs,
    Faults.round_events row world st = (evs ++ Faults.report row world e)%list /\
    printed_lines evs = [] /\ sent_messages evs = option_list sent.
Proof.
  intros Hraised. unfold Faults.body_failure, Faults.round_events.
  destruct Hraised as [e Hr | f e Hr Hw Hs | f e Hr Hs Hb | f payload e Hr Hs Hb Hsend
                      | f payload e Hr Hs Hb Hsend Hprint]; rewrite Hr.
  - split; [reflexivity|]. exists []. repeat split.
  - assert (Hf : Faults.sleep_failure st world f = Some e)
      by (unfold Faults.sleep_failure; now rewrite Hw).
    rewrite Hf. split; [reflexivity|]. cbv zeta.
    exists (sleep_events (round_wait st (Faults.env world) f)).
    split; [reflexivity|]. unfold sleep_events.
    now destruct (Qpositive _).
  - rewrite Hs. unfold Faults.failure_after_wait. rewrite Hb.
    split; [reflexivity|]. cbv zeta.
    exists (sleep_events (round_wait st (Faults.env world) f)).
    split; [reflexivity|]. unfold sleep_events.
    now destruct (Qpositive _).
  - rewrite Hs. unfold Faults.failure_after_wait. rewrite Hb, Hsend.
    split; [reflexivity|]. cbv zeta.
    exists (sleep_events (round_wait st (Faults.env world) f)).
    split; [reflexivity|]. unfold sleep_events.
    now destruct (Qpositive _).
  - rewrite Hs. unfold Faults.failure_after_wait. rewrite Hb, Hsend, Hprint.
    split; [reflexivity|]. cbv zeta.
    eexists (sleep_events (round_wait st (Faults.env world) f) ++ [Sent _ _])%list.
    split; [now rewrite <- app_assoc|].
    rewrite printed_lines_app, sent_messages_app. unfold sleep_events.
    now destruct (Qpositive _).
Qed.

(** Every exception of the body comes from one of the five steps. *)
Lemma failure_is_raised_by row world st e :
  Faults.body_failure row world st = Some e ->
  exists sent, Faults.raised_by row world st e sent.
Proof.
  unfold Faults.body_failure, Faults.failure_after_wait.
  destruct (parse_row row) as [e0|f] eqn:Hr.
  - intros [= ->]. eexists. now apply Faults.in_parsing.
  - destruct (Faults.sleep_failure st world f) as [e1|] eqn:Hs.
    + intros [= ->]. eexists. unfold Faults.sleep_failure in Hs.
      destruct (Qpositive _) eqn:Hw; [|discriminate].
      now apply (Faults.in_waiting _ _ _ f).
    + destruct (bytes (data_bytes f)) as [e2|payload] eqn:Hb.
      * intros [= ->]. eexists. now apply (Faults.in_frame_construction _ _ _ f).
      * destruct (send_raises (Faults.env world)) as [e3|] eqn:Hsend.
        -- intros [= ->]. eexists. now apply (Faults.in_sending _ _ _ f payload).
        -- intros Hprint. eexists.
           now apply (Faults.in_printing _ _ _ f payload).
Qed.

(** A round that no exception leaves prints one line. *)
Lemma one_line_per_round row world st :
  Faults.round_escape row world st = None ->
  length (printed_lines (Faults.round_events row world st)) = 1%nat.
Proof.
  unfold Faults.round_escape, Faults.body_failure, Faults.round_events,
    Faults.failure_after_wait, Faults.report.
  destruct (parse_row row) as [e|f].
  - now intros ->.
  - cbv zeta. rewrite printed_lines_app.
    replace (printed_lines (sleep_events (round_wait st (Faults.env world) f)))
      with (@nil Output)
      by (unfold sleep_events; now destruct (Qpositive _)).
    destruct (Faults.sleep_failure st world f); [now intros ->|].
    destruct (bytes (data_bytes f)); [now intros ->|].
    destruct (send_raises (Faults.env world)); [now intros ->|].
    destruct (Faults.print_raises world); [now intros ->|reflexivity].
Qed.

Lemma lines_of_completed_run rows : forall st final,
  paired st ->
  Faults.run rows st = (final, None) ->
  length (printed_lines (trace final)) =
  (length (printed_lines (trace st)) + length rows)%nat.
Proof.
  induction rows as [|[row world] rows IH]; intros st final Hp Hrun.
  - cbn in Hrun. injection Hrun as <-. cbn. lia.
  - cbn [Faults.run] in Hrun.
    pose proof (process_row_spec row world st Hp) as Hspec.
    pose proof (faulty_paired_round row world st Hp) as Hp1.
    destruct (Faults.process_row row world st) as [st1 [e1|]];
      [discriminate|].
    injection Hspec as Hst1 Hesc. symmetry in Hesc.
    rewrite (IH st1 final Hp1 Hrun), Hst1. cbn [trace length].
    rewrite printed_lines_app, length_app, (one_line_per_round _ _ _ Hesc).
    lia.
Qed.

(** C3, as amended: an exception raised in any step of the body, parsing,
    waiting, the construction of the frame, sending or the confirmation
    print, is raised inside [try] and reaches the handler. The frame of
    the row has not been transmitted, except when the exception comes from
    the confirmation print, which runs after [bus.send]. When the print of
    the handler succeeds, the round ends with one line that carries the
    exception and the row, and the loop goes on with the next row; when it
    raises, nothing is printed and its exception ends the run. A run that
    no exception leaves prints one line for each row of the input. *)
Theorem C3_exceptions_of_the_body_reach_the_handler
    (c0 : Q) (pre post : list (Row * Faults.World)) (st : State) (row : Row)
    (world : Faults.World) (e : exn) (sent : option Message) :
  Faults.run pre (initial c0) = (st, None) ->
  Faults.raised_by row world st e sent ->
  let round := Faults.process_row row world st in
  let rows := (pre ++ (row, world) :: post)%list in
  snd (Faults.body row world st) = inl e /\
  match Faults.report_raises world with
  | None =>
      (exists evs,
         trace round.1 = (trace st ++ evs ++ [Printed (SkipLine e row)])%list /\
         printed_lines evs = [] /\ sent_messages evs = option_list sent) /\
      Faults.run rows (initial c0) = Faults.run post round.1
  | Some e' =>
      (exists evs,
         trace round.1 = (trace st ++ evs)%list /\
         printed_lines evs = [] /\ sent_messages evs = option_list sent) /\
      Faults.run rows (initial c0) = (round.1, Some e')
  end /\
  (forall final,
     Faults.run rows (initial c0) = (final, None) ->
     length (printed_lines (trace final)) = length rows) /\
  (forall e',
     snd (Faults.body row world st) = inl e' ->
     exists sent', Faults.raised_by row world st e' sent').
Proof.
  intros Hrun Hraised round rows.
  assert (Hp : paired st) by exact (reached_paired _ _ _ _ Hrun).
  destruct (events_of_failure _ _ _ _ _ Hraised)
    as (Hfail & evs & Hev & Hlines & Hsent).
  pose proof (process_row_spec row world st Hp) as Hspec. fold round in Hspec.
  pose proof (run_reached pre row world post c0 st Hrun) as Hnext.
  fold rows round in Hnext.
  unfold Faults.round_escape in Hspec. rewrite Hfail, Hev in Hspec.
  unfold Faults.report in Hspec.
  split; [|split; [|split]].
  4:{ intros e' He'. rewrite (body_spec _ _ _ Hp) in He'.
      destruct (Faults.body_failure row world st) as [e1|] eqn:H1;
        [|discriminate].
      injection He' as <-. now apply failure_is_raised_by. }
  - rewrite (body_spec _ _ _ Hp). now rewrite Hfail.
  - destruct (Faults.report_raises world) as [e'|];
      rewrite Hspec in Hnext |- *; cbn [fst snd trace].
    + split; [|exact Hnext]. exists evs. rewrite app_nil_r. now repeat split.
    + split; [|exact Hnext]. exists evs. now repeat split.
  - intros final Hfinal.
    now rewrite (lines_of_completed_run rows (initial c0) final
                   (paired_initial c0) Hfinal).
Qed.

Lemma C3_exceptions_of_the_body_reach_the_handler_witness :
  Faults.run [(row_t0, Faults.quiet calm)] (initial 100) =
    ((Faults.run [(row_t0, Faults.quiet calm)] (initial 100)).1, None) /\
  Faults.raised_by row_t1 (Faults.no_timer calm)
    (Faults.run [(row_t0, Faults.quiet calm)] (initial 100)).1
    (OverflowError "timestamp too large") None /\
  snd (Faults.body row_t1 (Faults.no_timer calm)
         (Faults.run [(row_t0, Faults.quiet calm)] (initial 100)).1) =
    inl (OverflowError "timestamp too large") /\
  length (printed_lines
            (trace (Faults.run ([(row_t0, Faults.quiet calm)] ++
                                (row_t1, Faults.no_timer calm) ::
                                [(row_t2, Faults.quiet calm)])
                      (initial 100)).1)) = 3%nat.
Proof.
  assert (H1 : Faults.run [(row_t0, Faults.quiet calm)] (initial 100) =
    ((Faults.run [(row_t0, Faults.quiet calm)] (initial 100)).1, None))
    by (vm_compute; reflexivity).
  assert (H2 : Faults.raised_by row_t1 (Faults.no_timer calm)
    (Faults.run [(row_t0, Faults.quiet calm)] (initial 100)).1
    (OverflowError "timestamp too large") None).
  { apply (Faults.in_waiting _ _ _ fields_t1); vm_compute; reflexivity. }
  destruct (C3_exceptions_of_the_body_reach_the_handler 100
              [(row_t0, Faults.quiet calm)] [(row_t2, Faults.quiet calm)]
              _ row_t1 (Faults.no_timer calm) _ _ H1 H2)
    as (Hbody & _ & Hlines & _).
  split; [exact H1|]. split; [exact H2|]. split; [exact Hbody|].
  apply Hlines. vm_compute. reflexivity.
Defined.

(** C3, the claim as stated fails, twice. When the confirmation cannot be
    printed the exception comes after [bus.send]: the frame of the row has
    been transmitted, and the row is reported as skipped all the same. And
    the print of the handler is not inside [try]: with a console that is
    gone, the first row that fails ends the run, without an error line and
    with the rest of the input unread. *)
Lemma C3_sent_yet_reported_skipped_counterexample :
  (let final := (Faults.run [(row_a, Faults.no_confirmation calm)]
                   (initial 100)).1 in
   sent_messages (trace final) =
     [{| arbitration_id := 419; data := [Byte.x0a; Byte.xff];
         is_extended_id := true |}] /\
   printed_lines (trace final) =
     [SkipLine (OSError "No space left on device") row_a]) /\
  (let ended := Faults.run [(row_bad_id, Faults.no_console calm);
                            (row_a, Faults.quiet calm)] (initial 100) in
   ended.2 = Some (OSError "Broken pipe") /\ trace ended.1 = []).
Proof.
  cbv zeta. repeat split; vm_compute; reflexivity.
Qed.

(** The round that prints a confirmation: the row parsed, the frame went
    out just before, and the line is the one of line 45. *)
Lemma confirmation_printed row world st line :
  Printed (SentLine line) ∈ Faults.round_events row world st ->
  exists f payload at_time,
    parse_row row = inr f /\ bytes (data_bytes f) = inr payload /\
    line = sent_line f /\
    Sent at_time {| arbitration_id := canid f; data := payload;
                    is_extended_id := is_extended f |}
      ∈ Faults.round_events row world st.
Proof.
  unfold Faults.round_events, Faults.report.
  assert (Hrep : forall e,
    Printed (SentLine line) ∉
      match Faults.report_raises world with
      | Some _ => []
      | None => [Printed (SkipLine e row)]
      end).
  { intros e. destruct (Faults.report_raises world); intros H.
    - now apply elem_of_nil in H.
    - apply list_elem_of_singleton in H. discriminate. }
  destruct (parse_row row) as [e|f]; [intros H; now apply Hrep in H|].
  cbv zeta. intros H. apply elem_of_app in H as [H|H].
  { unfold sleep_events in H. destruct (Qpositive _).
    - apply list_elem_of_singleton in H. discriminate.
    - now apply elem_of_nil in H. }
  destruct (Faults.sleep_failure st world f); [now apply Hrep in H|].
  destruct (bytes (data_bytes f)) as [e|payload] eqn:Hb;
    [now apply Hrep in H|].
  destruct (send_raises (Faults.env world)); [now apply Hrep in H|].
  apply elem_of_cons in H as [H|H]; [discriminate|].
  destruct (Faults.print_raises world); [now apply Hrep in H|].
  apply list_elem_of_singleton in H. injection H as ->.
  eexists f, payload, _. split; [reflexivity|]. split; [exact Hb|].
  split; [reflexivity|].
  apply elem_of_app. right. apply list_elem_of_here.
Qed.

(** The round that sends a frame: the row parsed, its values are the
    bytes of the frame, and what follows the transmission is the
    confirmation, or what the handler prints when the confirmation
    raises. *)
Lemma frame_sent row world st at_time m :
  Sent at_time m ∈ Faults.round_events row world st ->
  exists f payload before,
    parse_row row = inr f /\ bytes (data_bytes f) = inr payload /\
    m = {| arbitration_id := canid f; data := payload;
           is_extended_id := is_extended f |} /\
    Faults.round_events row world st =
      (before ++ Sent at_time m ::
       match Faults.print_raises world with
       | None => [Printed (SentLine (sent_line f))]
       | Some e => Faults.report row world e
       end)%list.
Proof.
  unfold Faults.round_events.
  assert (Hrep : forall e, Sent at_time m ∉ Faults.report row world e).
  { intros e. unfold Faults.report.
    destruct (Faults.report_raises world); intros H.
    - now apply elem_of_nil in H.
    - apply list_elem_of_singleton in H. discriminate. }
  destruct (parse_row row) as [e|f]; [intros H; now apply Hrep in H|].
  cbv zeta. intros H. apply elem_of_app in H as [H|H].
  { now apply no_sent_in_sleep_events in H. }
  destruct (Faults.sleep_failure st world f); [now apply Hrep in H|].
  destruct (bytes (data_bytes f)) as [e|payload] eqn:Hb;
    [now apply Hrep in H|].
  destruct (send_raises (Faults.env world)); [now apply Hrep in H|].
  assert (Hlater : Sent at_time m ∉
    match Faults.print_raises world with
    | Some e => Faults.report row world e
    | None => [Printed (SentLine (sent_line f))]
    end).
  { destruct (Faults.print_raises world); [apply Hrep|].
    intros H'. apply list_elem_of_singleton in H'. discriminate. }
  apply elem_of_cons in H as [H|H]; [|now apply Hlater in H].
  injection H as -> ->.
  eexists f, payload, _. split; [reflexivity|]. split; [exact Hb|].
  split; [reflexivity|].
  now destruct (Faults.print_raises world).
Qed.

(** C5, as amended: for a record that is sent, the confirmation line is
    'Sent t=<sec>.<6 digits>s ID=0x<HEX> DLC=<int> Data=<HEX bytes>': it
    is the last event of the round when the print of line 45 returns, and
    no other confirmation is printed in the round. For a Time Stamp below
    2 ^ 33 seconds, where the float of line 22 prints without rounding,
    t= is the capture timestamp of the record itself, its Time Stamp field
    in seconds with six decimals, not the time since the first record; ID
    is the arbitration id in upper-case hexadecimal, DLC the declared
    length in decimal, and Data the bytes of the payload, each as two
    upper-case hexadecimal digits, separated by single spaces. *)
Theorem C5_confirmation_line_shows_own_timestamp
    (c0 : Q) (pre : list (Row * Faults.World)) (st : State) (row : Row)
    (world : Faults.World) (c_ts : option string) (us : Z)
    (evs : list Event) (at_time : Q) (m : Message) :
  Faults.run pre (initial c0) = (st, None) ->
  row !! "Time Stamp" = Some c_ts ->
  int 10 c_ts = inr us ->
  Z.abs us < Faults.exact_print_bound ->
  trace (Faults.process_row row world st).1 = (trace st ++ evs)%list ->
  Sent at_time m ∈ evs ->
  exists f secs decimals id len hex,
    let line := "Sent t=" ++ (sign_of us ++ secs ++ "." ++ decimals) ++
                "s ID=0x" ++ id ++ " DLC=" ++ len ++ " Data=" ++
                join " " hex in
    parse_row row = inr f /\
    (Faults.print_raises world = None ->
     last evs = Some (Printed (SentLine line))) /\
    (forall line', Printed (SentLine line') ∈ evs -> line' = line) /\
    denotes 10 secs (Z.abs_N us / 1000000) /\
    String.length decimals = 6%nat /\
    denotes 10 decimals (Z.abs_N us mod 1000000) /\
    arbitration_id m = canid f /\ signed_denotes 16 id (canid f) /\
    signed_denotes 10 len (dlc f) /\
    Forall2 (fun b s => String.length s = 2%nat /\
                        denotes 16 s (Z.to_N (byte_value b)))
      (data m) hex.
Proof.
  intros Hrun Hts Hus _ Htr Hin.
  assert (Hp : paired st) by exact (reached_paired _ _ _ _ Hrun).
  rewrite (faulty_trace_round _ _ _ Hp) in Htr. apply app_inv_head in Htr.
  subst evs.
  destruct (frame_sent _ _ _ _ _ Hin)
    as (f & payload & before & Hr & Hbytes & -> & Hevs).
  destruct (parse_row_inv row f Hr)
    as (c_ts' & us' & c_id & c_len & c_ext & Hts' & Hus' & Hf & _).
  rewrite Hts in Hts'. injection Hts' as <-.
  rewrite Hus in Hus'. injection Hus' as <-.
  exists f, (to_digits 10 (Z.abs_N us / 1000000)),
    (zfill 6 (to_digits 10 (Z.abs_N us mod 1000000))),
    (format_X (canid f)), (str_int (dlc f)),
    (map format_02X (data_bytes f)).
  cbv zeta.
  assert (Hm : (Z.abs_N us mod 1000000 < 1000000)%N) by (apply N.mod_lt; lia).
  destruct (six_decimals _ Hm) as [Hlen Hden].
  assert (Hline : sent_line f =
    "Sent t=" ++ (sign_of us ++ to_digits 10 (Z.abs_N us / 1000000) ++ "." ++
                  zfill 6 (to_digits 10 (Z.abs_N us mod 1000000))) ++
    "s ID=0x" ++ format_X (canid f) ++ " DLC=" ++ str_int (dlc f) ++
    " Data=" ++ join " " (map format_02X (data_bytes f))).
  { unfold sent_line. now rewrite Hf, format_6f_microseconds. }
  rewrite <- Hline.
  split; [exact Hr|].
  split.
  { intros Hprint. rewrite Hevs, Hprint.
    change (before ++ Sent at_time
              {| arbitration_id := canid f; data := payload;
                 is_extended_id := is_extended f |} ::
            [Printed (SentLine (sent_line f))])%list
      with (before ++
            [Sent at_time
               {| arbitration_id := canid f; data := payload;
                  is_extended_id := is_extended f |}] ++
            [Printed (SentLine (sent_line f))])%list.
    rewrite app_assoc. apply last_snoc. }
  split.
  { intros line' Hin'.
    destruct (confirmation_printed _ _ _ _ Hin')
      as (f' & _ & _ & Hr' & _ & -> & _).
    rewrite Hr in Hr'. now injection Hr' as <-. }
  split; [apply to_digits_denotes; lia|].
  split; [exact Hlen|]. split; [exact Hden|].
  split; [reflexivity|].
  split; [eexists; split; [reflexivity|]; apply to_digits_denotes; lia|].
  split; [eexists; split; [reflexivity|]; apply to_digits_denotes; lia|].
  cbn [data]. pose proof (bytes_in_range _ _ Hbytes) as Hrange.
  apply bytes_values in Hbytes. rewrite <- Hbytes in Hrange |- *.
  clear Hbytes Hevs Hin. induction payload as [|b bs IH].
  - constructor.
  - cbn. inversion Hrange as [|? ? Hb Hbs]; subst.
    constructor; [now apply two_hex_digits | now apply IH].
Qed.

Lemma C5_confirmation_line_shows_own_timestamp_witness :
  Faults.run [(row_a, Faults.quiet calm)] (initial 100) =
    ((Faults.run [(row_a, Faults.quiet calm)] (initial 100)).1, None) /\
  row_b !! "Time Stamp" = Some (Some "6500000") /\
  int 10 (Some "6500000") = inr 6500000 /\
  Z.abs 6500000 < Faults.exact_print_bound /\
  (exists w at_time m,
     trace (Faults.process_row row_b (Faults.quiet calm)
              (Faults.run [(row_a, Faults.quiet calm)] (initial 100)).1).1 =
     (trace (Faults.run [(row_a, Faults.quiet calm)] (initial 100)).1 ++
      [Slept w; Sent at_time m;
       Printed (SentLine "Sent t=6.500000s ID=0x7FF DLC=2 Data=01 02")])%list) /\
  exists f, parse_row row_b = inr f.
Proof.
  assert (H1 : Faults.run [(row_a, Faults.quiet calm)] (initial 100) =
    ((Faults.run [(row_a, Faults.quiet calm)] (initial 100)).1, None))
    by (vm_compute; reflexivity).
  assert (H2 : row_b !! "Time Stamp" = Some (Some "6500000"))
    by (vm_compute; reflexivity).
  assert (H3 : int 10 (Some "6500000") = inr 6500000)
    by (vm_compute; reflexivity).
  assert (H4 : Z.abs 6500000 < Faults.exact_print_bound)
    by (vm_compute; reflexivity).
  assert (H5 : exists w at_time m,
     trace (Faults.process_row row_b (Faults.quiet calm)
              (Faults.run [(row_a, Faults.quiet calm)] (initial 100)).1).1 =
     (trace (Faults.run [(row_a, Faults.quiet calm)] (initial 100)).1 ++
      [Slept w; Sent at_time m;
       Printed (SentLine "Sent t=6.500000s ID=0x7FF DLC=2 Data=01 02")])%list).
  { eexists _, _, _. vm_compute. reflexivity. }
  repeat (split; [assumption|]).
  destruct H5 as (w & at_time & m & H5).
  assert (H6 : Sent at_time m
                 ∈ [Slept w; Sent at_time m;
                    Printed (SentLine
                      "Sent t=6.500000s ID=0x7FF DLC=2 Data=01 02")]).
  { apply elem_of_cons. right. apply list_elem_of_here. }
  destruct (C5_confirmation_line_shows_own_timestamp 100
              [(row_a, Faults.quiet calm)] _ row_b (Faults.quiet calm)
              _ _ _ _ _ H1 H2 H3 H4 H5 H6)
    as (f & _ & _ & _ & _ & _ & Hr & _).
  exists f. exact Hr.
Defined.

End FaultyWorld.

(** ** The run as a whole *)

Section WholeRun.
Import Py Replay Step StepFacts Samples Spec Log.

(** The trace after a round is the trace before it and the events of the
    round. *)
Lemma trace_round row env st :
  paired st ->
  trace (process_row row env st) = (trace st ++ round_events row env st)%list.
Proof.
  intros Hp. unfold round_events, round_wait, now_of.
  destruct (parse_row row) as [e|f] eqn:Hr.
  - now rewrite (round_malformed _ _ _ _ Hr).
  - destruct (start_ts st) as [s0|] eqn:Hs.
    + destruct (start_time st) as [t0|] eqn:Ht.
      * now destruct (round_later row env st f s0 t0 Hr Hs Ht) as [-> _].
      * destruct Hp as [_ Hp]. specialize (Hp Ht). congruence.
    + destruct (round_first row env st f Hr Hs) as [Htr _].
      rewrite Htr. now destruct (start_time st).
Qed.

Lemma trace_run rows : forall st,
  paired st ->
  exists evs, trace (run rows st) = (trace st ++ evs)%list /\
    sent_messages evs = omap (fun re => frame_of re.1 re.2) rows /\
    printed_lines evs = map (fun re => report_of re.1 re.2) rows /\
    Forall (fun w => 0 < w)%Q (sleeps evs).
Proof.
  induction rows as [|[row env] rows IH]; intros st Hp.
  - exists []. cbn. rewrite app_nil_r. repeat split; constructor.
  - cbn [run]. destruct (IH _ (paired_round row env st Hp))
      as (evs & Htr & Hm & Hl & Hs).
    exists (round_events row env st ++ evs)%list.
    rewrite Htr, trace_round, <- app_assoc by assumption.
    split; [reflexivity|].
    rewrite sent_messages_app, printed_lines_app, sleeps_app, Hm, Hl.
    cbn [omap list_omap map fst snd].
    unfold round_events, frame_of, report_of.
    destruct (parse_row row) as [e|f]; [repeat split; assumption|].
    cbv zeta. rewrite sent_messages_app, printed_lines_app, sleeps_app.
    unfold sleep_events, outcome.
    destruct (Qpositive (round_wait st env f)) eqn:Hw;
      destruct (bytes (data_bytes f)), (send_raises env); cbn;
      repeat split; try assumption;
      constructor; try assumption; now apply positive_wait.
Qed.

(** X3: [time.sleep] is never called with zero or a negative number of
    seconds. *)
Theorem X3_sleep_only_positive (c0 : Q) (rows : list (Row * Env)) :
  Forall (fun w => 0 < w)%Q (sleeps (trace (run rows (initial c0)))).
Proof.
  destruct (trace_run rows (initial c0) (paired_initial c0))
    as (evs & Htr & _ & _ & Hs). now rewrite Htr.
Qed.

End WholeRun.

(** ** Runs with a timer or a console that can fail *)

Section FaultyRun.
Import Py Replay Step StepFacts Samples Spec Log FaultFacts.

(** The frame of a round in which [time.sleep] returns. *)
Lemma faulty_round_frames row world st :
  Faults.sleep_raises world = None ->
  sent_messages (Faults.round_events row world st) =
  option_list (frame_of row (Faults.env world)).
Proof.
  intros Hs.
  unfold Faults.round_events, frame_of, Faults.sleep_failure, Faults.report,
    sleep_events.
  rewrite Hs. destruct (parse_row row) as [e|f].
  - now destruct (Faults.report_raises world).
  - cbv zeta. rewrite sent_messages_app.
    destruct (Qpositive (round_wait st (Faults.env world) f));
      destruct (bytes (data_bytes f)), (send_raises (Faults.env world)),
        (Faults.print_raises world), (Faults.report_raises world);
      reflexivity.
Qed.

(** The line of a round in which [time.sleep] returns and that no
    exception leaves. *)
Lemma faulty_round_lines row world st :
  Faults.sleep_raises world = None ->
  Faults.round_escape row world st = None ->
  printed_lines (Faults.round_events row world st) =
  [Faults.report_of row world].
Proof.
  intros Hs.
  unfold Faults.round_events, Faults.round_escape, Faults.body_failure,
    Faults.report_of, Faults.failure_after_wait, Faults.sleep_failure,
    Faults.report, sleep_events.
  rewrite Hs. destruct (parse_row row) as [e|f].
  - destruct (Faults.report_raises world); [discriminate | reflexivity].
  - cbv zeta. rewrite printed_lines_app.
    destruct (Qpositive (round_wait st (Faults.env world) f));
      destruct (bytes (data_bytes f)), (send_raises (Faults.env world)),
        (Faults.print_raises world), (Faults.report_raises world);
      cbn; intros H; try discriminate H; reflexivity.
Qed.

(** A run that reaches the end of the input, in a world where
    [time.sleep] returns. *)
Lemma faulty_trace_run rows : forall st final,
  paired st ->
  Forall (fun world => Faults.sleep_raises world = None) rows.*2 ->
  Faults.run rows st = (final, None) ->
  exists evs, trace final = (trace st ++ evs)%list /\
    sent_messages evs =
      omap (fun rw => frame_of rw.1 (Faults.env rw.2)) rows /\
    printed_lines evs = map (fun rw => Faults.report_of rw.1 rw.2) rows.
Proof.
  induction rows as [|[row world] rows IH]; intros st final Hp Hall Hrun.
  - cbn in Hrun. injection Hrun as <-. exists []. now rewrite app_nil_r.
  - cbn in Hall. apply Forall_cons in Hall as [Hs Hall].
    cbn [Faults.run] in Hrun.
    pose proof (faulty_paired_round row world st Hp) as Hp1.
    pose proof (faulty_trace_round row world st Hp) as Htr1.
    pose proof (process_row_spec row world st Hp) as Hspec.
    destruct (Faults.process_row row world st) as [st1 [e|]];
      [discriminate|].
    cbn [fst] in Hp1, Htr1. injection Hspec as _ Hesc. symmetry in Hesc.
    destruct (IH st1 final Hp1 Hall Hrun) as (evs & Htr & Hm & Hl).
    exists (Faults.round_events row world st ++ evs)%list.
    rewrite Htr, Htr1, <- app_assoc. split; [reflexivity|].
    rewrite sent_messages_app, printed_lines_app, Hm, Hl,
      (faulty_round_frames _ _ _ Hs), (faulty_round_lines _ _ _ Hs Hesc).
    cbn [omap list_omap map fst snd].
    now destruct (frame_of row (Faults.env world)).
Qed.

(** X1: when [time.sleep] returns each time it is called and the run
    reaches the end of the input, the frames transmitted are, in the order
    of the file, the frames of the rows that parse, convert to bytes and
    are accepted by the transport: no frame is dropped for being late,
    none is sent twice or out of order, whatever the lags of the world and
    whether or not the confirmations can be printed. *)
Theorem X1_frames_in_file_order
    (c0 : Q) (rows : list (Row * Faults.World)) (final : State) :
  Forall (fun world => Faults.sleep_raises world = None) rows.*2 ->
  Faults.run rows (initial c0) = (final, None) ->
  sent_messages (trace final) =
  omap (fun rw => frame_of rw.1 (Faults.env rw.2)) rows.
Proof.
  intros Hall Hrun.
  destruct (faulty_trace_run rows _ _ (paired_initial c0) Hall Hrun)
    as (evs & Htr & Hm & _). now rewrite Htr.
Qed.

Lemma X1_frames_in_file_order_witness :
  Forall (fun world => Faults.sleep_raises world = None)
    [(row_a, Faults.no_confirmation jitter); (row_bad_id, Faults.quiet calm);
     (row_b, Faults.quiet bus_down); (row_b, Faults.quiet calm)].*2 /\
  sent_messages
    (trace (Faults.run
              [(row_a, Faults.no_confirmation jitter);
               (row_bad_id, Faults.quiet calm);
               (row_b, Faults.quiet bus_down);
               (row_b, Faults.quiet calm)] (initial 100)).1) =
  [{| arbitration_id := 419; data := [Byte.x0a; Byte.xff];
      is_extended_id := true |};
   {| arbitration_id := 2047; data := [Byte.x01; Byte.x02];
      is_extended_id := false |}].
Proof.
  assert (H1 : Forall (fun world => Faults.sleep_raises world = None)
    [(row_a, Faults.no_confirmation jitter); (row_bad_id, Faults.quiet calm);
     (row_b, Faults.quiet bus_down); (row_b, Faults.quiet calm)].*2)
    by (repeat constructor).
  split; [exact H1|].
  rewrite (X1_frames_in_file_order 100 _ _ H1); [|vm_compute; reflexivity].
  vm_compute. reflexivity.
Defined.

(** X2: when [time.sleep] returns each time it is called and the run
    reaches the end of the input, the console shows one line for each row,
    in the order of the file: the confirmation of the frame when it was
    sent and the confirmation could be printed, else the exception that
    stopped the row, with the row. *)
Theorem X2_one_line_per_row_in_order
    (c0 : Q) (rows : list (Row * Faults.World)) (final : State) :
  Forall (fun world => Faults.sleep_raises world = None) rows.*2 ->
  Faults.run rows (initial c0) = (final, None) ->
  printed_lines (trace final) =
  map (fun rw => Faults.report_of rw.1 rw.2) rows.
Proof.
  intros Hall Hrun.
  destruct (faulty_trace_run rows _ _ (paired_initial c0) Hall Hrun)
    as (evs & Htr & _ & Hl). now rewrite Htr.
Qed.

Lemma X2_one_line_per_row_in_order_witness :
  Forall (fun world => Faults.sleep_raises world = None)
    [(row_a, Faults.no_confirmation jitter); (row_bad_id, Faults.quiet calm);
     (row_b, Faults.quiet calm)].*2 /\
  printed_lines
    (trace (Faults.run
              [(row_a, Faults.no_confirmation jitter);
               (row_bad_id, Faults.quiet calm);
               (row_b, Faults.quiet calm)] (initial 100)).1) =
  [SkipLine (OSError "No space left on device") row_a;
   SkipLine (ValueError_int 16 "zz") row_bad_id;
   SentLine "Sent t=6.500000s ID=0x7FF DLC=2 Data=01 02"].
Proof.
  assert (H1 : Forall (fun world => Faults.sleep_raises world = None)
    [(row_a, Faults.no_confirmation jitter); (row_bad_id, Faults.quiet calm);
     (row_b, Faults.quiet calm)].*2)
    by (repeat constructor).
  split; [exact H1|].
  rewrite (X2_one_line_per_row_in_order 100 _ _ H1); [|vm_compute; reflexivity].
  vm_compute. reflexivity.
Defined.

End FaultyRun.

(** ** Wall-clock times of a run *)

Section Times.
Import Py Replay Step StepFacts Samples Spec Log FaultFacts.

Lemma clock_round row env st :
  paired st -> clock (process_row row env st) = round_clock row env st.
Proof.
  intros [Hp1 Hp2]. unfold process_row, round_clock, round_wait, now_of.
  destruct (parse_row row) as [e|f] eqn:Hr.
  - now rewrite (body_malformed _ _ _ _ Hr).
  - rewrite (body_parsed _ _ _ _ Hr).
    destruct (start_ts st) as [s0|], (start_time st) as [t0|];
      try (specialize (Hp1 eq_refl); discriminate);
      try (specialize (Hp2 eq_refl); discriminate);
      cbv zeta; unfold after_wait, clock_after_wait;
      destruct (bytes (data_bytes f)), (send_raises env),
        (Qpositive _); reflexivity.
Qed.

(** In a well-behaved world the clock does not go back in a round, and a
    frame sent in the round is sent between the clock readings at its two
    ends. *)
Lemma round_times row env st :
  paired st -> env_ok env ->
  (clock st <= clock (process_row row env st))%Q /\
  Forall (fun t => clock st <= t /\ t <= clock (process_row row env st))%Q
    (send_times (round_events row env st)).
Proof.
  intros Hp (Hstart & Hnow & Hover & Hsend). rewrite (clock_round _ _ _ Hp).
  unfold round_clock, round_events.
  destruct (parse_row row) as [e|f]; [split; [lra | constructor]|].
  cbv zeta. rewrite send_times_app.
  set (w := round_wait st env f).
  assert (Hge : (clock st <= now_of st env)%Q).
  { unfold now_of. destruct (start_ts st); lra. }
  assert (Hc1 : (now_of st env <= clock_after_wait env (now_of st env) w)%Q).
  { unfold clock_after_wait. destruct (Qpositive w) eqn:Hw; [|lra].
    apply positive_wait in Hw. lra. }
  replace (send_times (sleep_events w)) with (@nil Q)
    by (unfold sleep_events; now destruct (Qpositive w)).
  unfold outcome.
  destruct (bytes (data_bytes f)), (send_raises env); cbn;
    (split; [lra | repeat constructor; lra]).
Qed.

(** A round sends one frame at most. *)
Lemma round_sends_one row env st :
  send_times (round_events row env st) = [] \/
  exists t, send_times (round_events row env st) = [t].
Proof.
  unfold round_events. destruct (parse_row row) as [e|f]; [now left|].
  cbv zeta. rewrite send_times_app. unfold sleep_events, outcome.
  destruct (Qpositive _), (bytes (data_bytes f)), (send_raises env); cbn;
    eauto.
Qed.

Lemma run_times rows : forall st,
  paired st -> Forall env_ok rows.*2 ->
  exists new,
    send_times (trace (run rows st)) = (send_times (trace st) ++ new)%list /\
    StronglySorted Qle new /\
    Forall (fun t => clock st <= t /\ t <= clock (run rows st))%Q new /\
    (clock st <= clock (run rows st))%Q.
Proof.
  induction rows as [|[row env] rows IH]; intros st Hp Hok.
  - exists []. cbn. rewrite app_nil_r. repeat split; try constructor. lra.
  - cbn in Hok. apply Forall_cons in Hok as [Henv Hok]. cbn [run].
    destruct (IH _ (paired_round row env st Hp) Hok)
      as (new & Htimes & Hsorted & Hbounds & Hclock).
    destruct (round_times row env st Hp Henv) as [Hstep Hround].
    set (st1 := process_row row env st) in *.
    exists (send_times (round_events row env st) ++ new)%list.
    split; [|split; [|split]].
    + rewrite Htimes. unfold st1.
      now rewrite trace_round, send_times_app, <- app_assoc.
    + apply StronglySorted_app. split; [|split].
      * intros x1 x2 H1 H2. rewrite Forall_forall in Hround, Hbounds.
        destruct (Hround _ H1) as [_ Hx1]. destruct (Hbounds _ H2) as [Hx2 _].
        lra.
      * destruct (round_sends_one row env st) as [Hn | [t Hn]]; rewrite Hn;
          repeat constructor.
      * exact Hsorted.
    + apply Forall_app. split.
      * eapply Forall_impl; [exact Hround|]. cbv beta. intros t [? ?].
        split; lra.
      * eapply Forall_impl; [exact Hbounds|]. cbv beta. intros t [? ?].
        split; lra.
    + lra.
Qed.

(** X4: when a frame goes out. For a row that parses, converts to bytes
    and is accepted by the transport, in a round where [time.sleep]
    does not raise: if the round reads the clock at or after the deadline
    start_time + (ts - start_ts) of the record, it does not sleep and the
    frame is sent as soon as [bus.send] returns; if it reads the clock
    before the deadline, it sleeps for the time left and the frame is sent
    at the deadline, later only by what the sleep and the transport add.
    The confirmation follows, or the report of the handler when the
    confirmation cannot be printed. *)
Theorem X4_send_time_of_frame
    (c0 : Q) (pre : list (Row * Faults.World)) (st : State) (row : Row)
    (world : Faults.World) (f : Fields) (m : Message) :
  Faults.run pre (initial c0) = (st, None) ->
  parse_row row = inr f ->
  frame_of row (Faults.env world) = Some m ->
  Faults.sleep_failure st world f = None ->
  let env := Faults.env world in
  let st' := (Faults.process_row row world st).1 in
  let now := now_of st env in
  let tail := match Faults.print_raises world with
              | None => [Printed (SentLine (sent_line f))]
              | Some e => Faults.report row world e
              end in
  exists s0 t0,
    baseline st' = (Some s0, Some t0) /\
    let deadline := (t0 + (ts f - s0))%Q in
    ((deadline <= now)%Q /\
     trace st' =
       (trace st ++ Sent (now + before_send env)%Q m :: tail)%list) \/
    ((now < deadline)%Q /\
     exists w at_time,
       (w == deadline - now)%Q /\
       (at_time == deadline + oversleep env + before_send env)%Q /\
       trace st' = (trace st ++ Slept w :: Sent at_time m :: tail)%list).
Proof.
  intros Hrun Hr Hm Hs env st' now tail.
  assert (Hp : paired st) by exact (reached_paired _ _ _ _ Hrun).
  assert (Htr : trace st' =
                (trace st ++ Faults.round_events row world st)%list)
    by now apply faulty_trace_round.
  assert (Hb : baseline st' = Faults.round_baseline row world st)
    by now apply baseline_round.
  unfold frame_of in Hm. rewrite Hr in Hm.
  unfold Faults.round_events in Htr.
  rewrite Hr, Hs in Htr. cbv zeta in Htr. fold env now in Htr.
  unfold Faults.round_baseline in Hb. rewrite Hr in Hb.
  destruct (bytes (data_bytes f)) as [e|payload]; [discriminate|].
  fold env in Hm. destruct (send_raises env); [discriminate|].
  injection Hm as <-. fold tail in Htr.
  assert (Hcase : forall s0 t0,
    baseline st' = (Some s0, Some t0) ->
    round_wait st env f = wait_time_of (ts f) s0 now t0 ->
    let deadline := (t0 + (ts f - s0))%Q in
    ((deadline <= now)%Q /\
     trace st' =
       (trace st ++
        Sent (now + before_send env)%Q
          {| arbitration_id := canid f; data := payload;
             is_extended_id := is_extended f |} :: tail)%list) \/
    ((now < deadline)%Q /\
     exists w at_time,
       (w == deadline - now)%Q /\
       (at_time == deadline + oversleep env + before_send env)%Q /\
       trace st' =
         (trace st ++
          Slept w :: Sent at_time
            {| arbitration_id := canid f; data := payload;
               is_extended_id := is_extended f |} :: tail)%list)).
  { intros s0 t0 _ Hw deadline. rewrite Hw in Htr.
    unfold sleep_events, clock_after_wait in Htr.
    destruct (Qpositive (wait_time_of (ts f) s0 now t0)) eqn:Hpos.
    - right. apply positive_wait in Hpos. unfold wait_time_of in Hpos.
      split; [unfold deadline; lra|].
      eexists _, _. split; [|split; [|exact Htr]];
        unfold wait_time_of, deadline; lra.
    - left. apply non_positive_wait in Hpos. unfold wait_time_of in Hpos.
      split; [unfold deadline; lra | exact Htr]. }
  unfold round_wait in Hcase.
  destruct (start_ts st) as [s|] eqn:Hsts.
  - destruct (start_time st) as [t|] eqn:Hst.
    + exists s, t. split; [exact Hb|]. now apply Hcase.
    + destruct Hp as [_ Hp]. specialize (Hp Hst). congruence.
  - exists (ts f), (clock st + before_start env)%Q.
    split; [exact Hb|]. apply Hcase; [exact Hb|].
    now destruct (start_time st).
Qed.

Lemma X4_send_time_of_frame_witness :
  Faults.run [(row_t0, Faults.quiet calm)] (initial 100) =
    ((Faults.run [(row_t0, Faults.quiet calm)] (initial 100)).1, None) /\
  parse_row row_t1 = inr fields_t1 /\
  frame_of row_t1 (Faults.env (Faults.no_confirmation calm)) =
    Some {| arbitration_id := 256; data := []; is_extended_id := false |} /\
  Faults.sleep_failure
    (Faults.run [(row_t0, Faults.quiet calm)] (initial 100)).1
    (Faults.no_confirmation calm) fields_t1 = None /\
  exists s0 t0,
    baseline (Faults.process_row row_t1 (Faults.no_confirmation calm)
                (Faults.run [(row_t0, Faults.quiet calm)] (initial 100)).1).1 =
      (Some s0, Some t0).
Proof.
  assert (H0 : Faults.run [(row_t0, Faults.quiet calm)] (initial 100) =
    ((Faults.run [(row_t0, Faults.quiet calm)] (initial 100)).1, None))
    by (vm_compute; reflexivity).
  assert (Hr : parse_row row_t1 = inr fields_t1) by (vm_compute; reflexivity).
  assert (Hm : frame_of row_t1 (Faults.env (Faults.no_confirmation calm)) =
    Some {| arbitration_id := 256; data := []; is_extended_id := false |})
    by (vm_compute; reflexivity).
  assert (Hs : Faults.sleep_failure
    (Faults.run [(row_t0, Faults.quiet calm)] (initial 100)).1
    (Faults.no_confirmation calm) fields_t1 = None)
    by (vm_compute; reflexivity).
  split; [exact H0|]. split; [exact Hr|]. split; [exact Hm|].
  split; [exact Hs|].
  destruct (X4_send_time_of_frame 100 [(row_t0, Faults.quiet calm)] _ row_t1
              (Faults.no_confirmation calm) fields_t1 _ H0 Hr Hm Hs)
    as (s0 & t0 & Hb & _).
  exists s0, t0. exact Hb.
Defined.

(** X5: in a world where the clock does not run backwards the frames
    leave in the order of the wall clock: the times of the transmissions of
    a run never decrease, and all lie between the start of the run and its
    end. *)
Theorem X5_send_times_never_decrease (c0 : Q) (rows : list (Row * Env)) :
  Forall env_ok rows.*2 ->
  let final := run rows (initial c0) in
  StronglySorted Qle (send_times (trace final)) /\
  Forall (fun t => c0 <= t /\ t <= clock final)%Q (send_times (trace final)).
Proof.
  intros Hok final.
  destruct (run_times rows (initial c0) (paired_initial c0) Hok)
    as (new & Htimes & Hsorted & Hbounds & _).
  cbn [initial trace send_times app clock] in Htimes, Hbounds.
  unfold final. rewrite Htimes. split; assumption.
Qed.

Lemma X5_send_times_never_decrease_witness :
  Forall env_ok [(row_t0, slow_send); (row_t1, jitter); (row_t2, calm)].*2 /\
  StronglySorted Qle
    (send_times (trace (run [(row_t0, slow_send); (row_t1, jitter);
                             (row_t2, calm)] (initial 100)))).
Proof.
  assert (H : Forall env_ok
            [(row_t0, slow_send); (row_t1, jitter); (row_t2, calm)].*2)
    by (repeat constructor; vm_compute; discriminate).
  split; [exact H|].
  apply (X5_send_times_never_decrease 100
           [(row_t0, slow_send); (row_t1, jitter); (row_t2, calm)] H).
Defined.

End Times.

(** ** Reading back what is printed *)

Section ReadBack.
Import Py Replay Step StepFacts Samples Spec Log.

(** An upper-case digit is no blank, no sign, no underscore and no [x],
    and [int] gives it the same value. *)
Lemma upper_digit_plain c d :
  upper_digit c = Some d ->
  isspace c = false /\ is_underscore c = false /\ digit_value c = d /\
  c <> "+"%char /\ c <> "-"%char /\
  ((d < 16)%N -> Ascii.eqb c "x" || Ascii.eqb c "X" = false).
Proof.
  destruct c as [[] [] [] [] [] [] [] []]; intros H; vm_compute in H;
    try discriminate; injection H as <-;
    (repeat split; try reflexivity; try discriminate;
     intros Hlt; vm_compute in Hlt; discriminate).
Qed.

Lemma skip_prefix_one base c : skip_prefix base (String c "") = String c "".
Proof. destruct c as [[] [] [] [] [] [] [] []]; reflexivity. Qed.

Lemma skip_prefix_none base c x s :
  Ascii.eqb x "x" || Ascii.eqb x "X" = false ->
  skip_prefix base (String c (String x s)) = String c (String x s).
Proof.
  intros Hx. destruct c as [[] [] [] [] [] [] [] []]; try reflexivity.
  unfold skip_prefix. now rewrite Hx, andb_false_r.
Qed.

Lemma unsigned_literal_plain base c s :
  is_underscore c = false ->
  skip_prefix base (String c s) = String c s ->
  unsigned_literal base (String c s) =
  match scan_digits base false false 0%N (String c s) with
  | Some (v, true, rest) =>
      match lstrip rest with
      | EmptyString => Some v
      | _ => None
      end
  | _ => None
  end.
Proof.
  intros Hus Hskip. unfold unsigned_literal. rewrite Hskip.
  destruct c as [[] [] [] [] [] [] [] []]; try reflexivity.
  vm_compute in Hus. discriminate.
Qed.

Lemma parse_int_plain base c s :
  isspace c = false -> c <> "+"%char -> c <> "-"%char ->
  parse_int base (String c s) = Z.of_N <$> unsigned_literal base (String c s).
Proof.
  intros Hsp Hplus Hminus. unfold parse_int. cbn [lstrip]. rewrite Hsp.
  destruct c as [[] [] [] [] [] [] [] []]; try reflexivity; congruence.
Qed.

(** The digit loop of [int] on a text of upper-case digits. *)
Lemma scan_digits_number base n : forall s acc seen,
  number_of base acc s = Some n ->
  scan_digits base false seen acc s =
  Some (n, match s with EmptyString => seen | _ => true end, "").
Proof.
  induction s as [|c s IH]; intros acc seen H; cbn [number_of] in H.
  - now injection H as <-.
  - destruct (upper_digit c) as [d|] eqn:Hd; [|discriminate].
    destruct (d <? base)%N eqn:Hlt; [|discriminate].
    destruct (upper_digit_plain c d Hd) as (_ & Hus & Hval & _).
    cbn [scan_digits]. rewrite Hus, Hval, Hlt, (IH _ true H).
    now destruct s.
Qed.

Lemma unsigned_literal_number base s n :
  (base <= 16)%N -> denotes base s n -> unsigned_literal base s = Some n.
Proof.
  intros Hbase [Hne Hnum]. destruct s as [|c s]; [contradiction|].
  assert (Hc := Hnum). cbn [number_of] in Hc.
  destruct (upper_digit c) as [d|] eqn:Hd; [|discriminate].
  destruct (d <? base)%N eqn:Hlt; [|discriminate].
  destruct (upper_digit_plain c d Hd) as (_ & Hus & _).
  rewrite unsigned_literal_plain, (scan_digits_number _ _ _ _ _ Hnum);
    [reflexivity | exact Hus |].
  destruct s as [|x s]; [apply skip_prefix_one|].
  apply skip_prefix_none. cbn [number_of] in Hc.
  destruct (upper_digit x) as [d'|] eqn:Hd'; [|discriminate].
  destruct (d' <? base)%N eqn:Hlt'; [|discriminate].
  apply N.ltb_lt in Hlt'.
  destruct (upper_digit_plain x d' Hd') as (_ & _ & _ & _ & _ & Hx).
  apply Hx. lia.
Qed.

(** [int] reads a sign followed by upper-case digits as the integer they
    write. *)
Lemma parse_int_signed base s z :
  (base <= 16)%N -> signed_denotes base s z -> parse_int base s = Some z.
Proof.
  intros Hbase (d & -> & Hd).
  pose proof (unsigned_literal_number base d _ Hbase Hd) as Hlit.
  unfold sign_of. destruct (z <? 0) eqn:Hz.
  - change ("-" ++ d) with (String "-" d).
    change (parse_int base (String "-" d))
      with (Z.opp <$> (Z.of_N <$> unsigned_literal base d)).
    rewrite Hlit. cbn. f_equal. apply Z.ltb_lt in Hz. lia.
  - change ("" ++ d) with d. destruct Hd as [Hne Hnum].
    destruct d as [|c d]; [contradiction|].
    assert (Hc := Hnum). cbn [number_of] in Hc.
    destruct (upper_digit c) as [v|] eqn:Hv; [|discriminate].
    destruct (upper_digit_plain c v Hv) as (Hsp & _ & _ & Hplus & Hminus & _).
    rewrite parse_int_plain, Hlit by assumption.
    cbn. f_equal. apply Z.ltb_ge in Hz. lia.
Qed.

Lemma format_X_read_back z : parse_int 16 (format_X z) = Some z.
Proof.
  apply parse_int_signed; [lia|]. eexists. split; [reflexivity|].
  apply to_digits_denotes. lia.
Qed.

Lemma str_int_read_back z : parse_int 10 (str_int z) = Some z.
Proof.
  apply parse_int_signed; [lia|]. eexists. split; [reflexivity|].
  apply to_digits_denotes. lia.
Qed.

(** The names of the data columns are all different. *)
Lemma data_key_inj i j : data_key i = data_key j -> i = j.
Proof.
  unfold data_key. intros H.
  change ("D" ++ str_int i) with (String "D" (str_int i)) in H.
  change ("D" ++ str_int j) with (String "D" (str_int j)) in H.
  injection H as H.
  pose proof (str_int_read_back i) as Hi. rewrite H in Hi.
  rewrite str_int_read_back in Hi. now injection Hi.
Qed.

End ReadBack.

(** ** The data loop: what stops it, what it does not read *)

Section DataLoop.
Import Py Replay Step StepFacts Samples Spec Log.

(** With lines 22 to 25 passed, the row parses as the data loop ends. *)
Lemma parse_row_after_header row c_ts us c_id id c_len len c_ext :
  row !! "Time Stamp" = Some c_ts -> int 10 c_ts = inr us ->
  row !! "ID" = Some c_id -> int 16 c_id = inr id ->
  row !! "LEN" = Some c_len -> int 10 c_len = inr len ->
  row !! "Extended" = Some (Some c_ext) ->
  parse_row row =
  match collect row 1 (Z.to_nat len) [] with
  | inl e => inl e
  | inr l =>
      inr {| ts := inject_Z us / 1000000; canid := id; dlc := len;
             is_extended := String.eqb (lower c_ext) "true";
             data_bytes := l |}
  end.
Proof.
  intros H1 H2 H3 H4 H5 H6 H7. unfold parse_row, getitem, ebind.
  rewrite H1, H2, H3, H4, H5, H6, H7. reflexivity.
Qed.

(** The data loop goes through the sub-fields that are empty or
    hexadecimal and raises at the first one that is neither. *)
Lemma collect_stops row k e :
  (row !! data_key k = None /\ e = KeyError (data_key k) \/
   exists s, row !! data_key k = Some (Some s) /\ s <> "" /\
             parse_int 16 s = None /\ e = ValueError_int 16 s) ->
  forall n i acc,
    i <= k < i + Z.of_nat n ->
    (forall j, i <= j < k -> passable row j) ->
    collect row i n acc = inl e.
Proof.
  intros Hstop. induction n as [|n IH]; intros i acc Hk Hpass; [lia|].
  cbn [collect]. unfold getitem, ebind. fold (data_key i).
  destruct (Z.eq_dec i k) as [->|Hne].
  - destruct Hstop as [[-> ->] | (s & -> & Hs & Hnone & ->)]; [reflexivity|].
    destruct s as [|c s]; [contradiction|]. cbn [truthy].
    unfold int. now rewrite Hnone.
  - destruct (Hpass i ltac:(lia)) as (cell & -> & [Hfalsy | [b Hb]]).
    + rewrite Hfalsy. apply IH; [lia|]. intros j Hj. apply Hpass. lia.
    + rewrite Hb. destruct (truthy cell);
        (apply IH; [lia|]; intros j Hj; apply Hpass; lia).
Qed.

Lemma skipped_untouched row env st e :
  parse_row row = inl e ->
  frame_of row env = None /\
  process_row row env st =
  {| start_ts := start_ts st; start_time := start_time st;
     clock := clock st; trace := trace st ++ [Printed (SkipLine e row)] |}.
Proof.
  intros Hr. split; [unfold frame_of; now rewrite Hr|].
  now apply round_malformed.
Qed.

(** X8: a declared length that reaches past the data columns of the
    file. When LEN counts a column D<k> the row does not have, and the
    sub-fields before it are empty or hexadecimal, the row is rejected
    with KeyError for D<k>: nothing is sent, and the baseline and the
    clock of the replay are as before. With the header D1..D8 this is what
    happens to every row whose LEN is 9 or more. *)
Theorem X8_length_past_the_columns
    (row : Row) (len k : Z) (env : Env) (st : State) :
  header_ok row len ->
  1 <= k <= len ->
  (forall j, 1 <= j < k -> passable row j) ->
  row !! data_key k = None ->
  parse_row row = inl (KeyError (data_key k)) /\
  frame_of row env = None /\
  process_row row env st =
  {| start_ts := start_ts st; start_time := start_time st;
     clock := clock st;
     trace := trace st ++ [Printed (SkipLine (KeyError (data_key k)) row)] |}.
Proof.
  intros (c_ts & us & c_id & id & c_len & c_ext & H1 & H2 & H3 & H4 & H5
          & H6 & H7) Hk Hpass Hnone.
  assert (Hr : parse_row row = inl (KeyError (data_key k))).
  { rewrite (parse_row_after_header _ _ _ _ _ _ _ _ H1 H2 H3 H4 H5 H6 H7).
    rewrite (collect_stops row k (KeyError (data_key k)));
      [reflexivity | now left | lia | exact Hpass]. }
  split; [exact Hr|]. now apply skipped_untouched.
Qed.

Lemma row_len9_passable j : 1 <= j < 9 -> passable row_len9 j.
Proof.
  intros Hj.
  assert (Hcases : j = 1 \/ j = 2 \/ j = 3 \/ j = 4 \/ j = 5 \/ j = 6 \/
                   j = 7 \/ j = 8) by lia.
  repeat destruct Hcases as [-> | Hcases]; try subst j;
    (eexists; split; [vm_compute; reflexivity|]);
    first [left; reflexivity | right; eexists; vm_compute; reflexivity].
Qed.

Lemma X8_length_past_the_columns_witness :
  header_ok row_len9 9 /\
  1 <= 9 <= 9 /\
  row_len9 !! data_key 9 = None /\
  parse_row row_len9 = inl (KeyError "D9").
Proof.
  assert (H1 : header_ok row_len9 9).
  { exists (Some "0"), 0, (Some "100"), 256, (Some "9"), "False".
    repeat split; vm_compute; reflexivity. }
  assert (H2 : 1 <= 9 <= 9) by lia.
  assert (H3 : row_len9 !! data_key 9 = None) by (vm_compute; reflexivity).
  split; [exact H1|]. split; [exact H2|]. split; [exact H3|].
  apply (X8_length_past_the_columns row_len9 9 9 calm (initial 0) H1 H2
           row_len9_passable H3).
Defined.

(** X9: a data sub-field within LEN that holds an ASCII text, not empty
    and no hexadecimal literal, a blank for one, is not taken for an absent
    byte: the row is rejected with the ValueError of [int] for that text,
    nothing is sent, and the baseline and the clock of the replay are as
    before. *)
Theorem X9_bad_text_in_data_field
    (row : Row) (len k : Z) (s : string) (env : Env) (st : State) :
  header_ok row len ->
  1 <= k <= len ->
  (forall j, 1 <= j < k -> passable row j) ->
  row !! data_key k = Some (Some s) ->
  s <> "" ->
  ascii_text s ->
  parse_int 16 s = None ->
  parse_row row = inl (ValueError_int 16 s) /\
  frame_of row env = None /\
  process_row row env st =
  {| start_ts := start_ts st; start_time := start_time st;
     clock := clock st;
     trace := trace st ++ [Printed (SkipLine (ValueError_int 16 s) row)] |}.
Proof.
  intros (c_ts & us & c_id & id & c_len & c_ext & H1 & H2 & H3 & H4 & H5
          & H6 & H7) Hk Hpass Hcell Hne _ Hbad.
  assert (Hr : parse_row row = inl (ValueError_int 16 s)).
  { rewrite (parse_row_after_header _ _ _ _ _ _ _ _ H1 H2 H3 H4 H5 H6 H7).
    rewrite (collect_stops row k (ValueError_int 16 s));
      [reflexivity | right; now exists s | lia | exact Hpass]. }
  split; [exact Hr|]. now apply skipped_untouched.
Qed.

Lemma row_blank_passable j : 1 <= j < 2 -> passable row_blank j.
Proof.
  intros Hj. assert (j = 1) as -> by lia.
  eexists. split; [vm_compute; reflexivity|].
  right. eexists. vm_compute. reflexivity.
Qed.

Lemma X9_bad_text_in_data_field_witness :
  header_ok row_blank 2 /\
  1 <= 2 <= 2 /\
  row_blank !! data_key 2 = Some (Some " ") /\
  " " <> "" /\
  ascii_text " " /\
  parse_int 16 " " = None /\
  parse_row row_blank = inl (ValueError_int 16 " ").
Proof.
  assert (H1 : header_ok row_blank 2).
  { exists (Some "0"), 0, (Some "100"), 256, (Some "2"), "False".
    repeat split; vm_compute; reflexivity. }
  assert (H2 : 1 <= 2 <= 2) by lia.
  assert (H3 : row_blank !! data_key 2 = Some (Some " "))
    by (vm_compute; reflexivity).
  assert (H4 : " " <> "") by discriminate.
  assert (H5 : parse_int 16 " " = None) by (vm_compute; reflexivity).
  assert (H6 : ascii_text " ") by (repeat constructor).
  repeat (split; [assumption|]).
  apply (X9_bad_text_in_data_field row_blank 2 2 " " calm (initial 0) H1 H2
           row_blank_passable H3 H4 H6 H5).
Defined.

End DataLoop.

(** ** The columns a row is read from *)

Section Columns.
Import Py Replay Step StepFacts Samples Spec Log.

Lemma collect_agree row row' n : forall i acc,
  (forall q, i <= q < i + Z.of_nat n ->
             row' !! data_key q = row !! data_key q) ->
  collect row' i n acc = collect row i n acc.
Proof.
  induction n as [|n IH]; intros i acc Hagree; [reflexivity|].
  cbn [collect]. unfold getitem, ebind. fold (data_key i).
  rewrite (Hagree i) by lia.
  destruct (row !! data_key i) as [cell|]; [|reflexivity].
  destruct (truthy cell).
  - destruct (int 16 cell); [reflexivity|].
    apply IH. intros q Hq. apply Hagree. lia.
  - apply IH. intros q Hq. apply Hagree. lia.
Qed.

(** The parse of a row depends on the four named columns and on the data
    columns D1..D<LEN> only. *)
Lemma parse_row_agree row row' f :
  parse_row row = inr f ->
  row' !! "Time Stamp" = row !! "Time Stamp" ->
  row' !! "ID" = row !! "ID" ->
  row' !! "LEN" = row !! "LEN" ->
  row' !! "Extended" = row !! "Extended" ->
  (forall q, 1 <= q <= dlc f -> row' !! data_key q = row !! data_key q) ->
  parse_row row' = inr f.
Proof.
  intros Hr Hts Hid Hlen Hext Hdata.
  destruct (parse_row_inv row f Hr)
    as (c_ts & us & c_id & c_len & c_ext & H1 & H2 & Hf & H3 & H4 & H5 & H6
        & H7 & H8 & H9).
  rewrite <- Hts in H1. rewrite <- Hid in H3. rewrite <- Hlen in H5.
  rewrite <- Hext in H7.
  rewrite (parse_row_after_header _ _ _ _ _ _ _ _ H1 H2 H3 H4 H5 H6 H7).
  rewrite (collect_agree row row'), H9.
  - destruct f as [t c d x bs]. cbn in *. now subst.
  - intros q Hq. apply Hdata. lia.
Qed.

Lemma data_key_not_header j :
  data_key j <> "Time Stamp" /\ data_key j <> "ID" /\
  data_key j <> "LEN" /\ data_key j <> "Extended".
Proof.
  unfold data_key. change ("D" ++ str_int j) with (String "D" (str_int j)).
  repeat split; discriminate.
Qed.

(** X10: what lies beyond the declared length is not read. Writing
    anything into a data column D<j> with j above LEN (or below 1), or
    removing that column from the row, changes nothing in what the row
    parses to. *)
Theorem X10_columns_beyond_length_not_read
    (row : Row) (f : Fields) (j : Z) (cell : option string) :
  parse_row row = inr f ->
  ~ (1 <= j <= dlc f) ->
  parse_row (<[data_key j := cell]> row) = inr f /\
  parse_row (delete (data_key j) row) = inr f.
Proof.
  intros Hr Hj.
  destruct (data_key_not_header j) as (N1 & N2 & N3 & N4).
  split.
  - apply (parse_row_agree row); try assumption;
      try (now apply lookup_insert_ne).
    intros q Hq. apply lookup_insert_ne. intros Heq.
    apply data_key_inj in Heq. lia.
  - apply (parse_row_agree row); try assumption;
      try (now apply lookup_delete_ne).
    intros q Hq. apply lookup_delete_ne. intros Heq.
    apply data_key_inj in Heq. lia.
Qed.

Lemma X10_columns_beyond_length_not_read_witness :
  parse_row row_short = inr fields_short /\
  ~ (1 <= 2 <= dlc fields_short) /\
  row_short !! data_key 2 = Some (Some "zz") /\
  parse_row (<[data_key 2 := Some "7F"]> row_short) = inr fields_short /\
  parse_row (delete (data_key 2) row_short) = inr fields_short.
Proof.
  assert (H1 : parse_row row_short = inr fields_short)
    by (vm_compute; reflexivity).
  assert (H2 : ~ (1 <= 2 <= dlc fields_short)) by (cbn; lia).
  split; [exact H1|]. split; [exact H2|]. split; [vm_compute; reflexivity|].
  apply (X10_columns_beyond_length_not_read row_short fields_short 2
           (Some "7F") H1 H2).
Defined.

End Columns.

(** ** How long a run lasts, and what is not checked *)

Section Duration.
Import Py Replay Step StepFacts Samples Spec Log FaultFacts.





(** X12: the arbitration id is not checked against the 11 or 29 bits of a
    CAN identifier. Whatever integer is written in upper-case hexadecimal
    in the ID field of a row that parses, negative or longer than 29 bits,
    the row parses with that integer as arbitration id and is handed to the
    transport as it is. *)
Theorem X12_arbitration_id_not_range_checked
    (row : Row) (f : Fields) (id : Z) :
  parse_row row = inr f ->
  parse_row (<["ID" := Some (format_X id)]> row) = inr (with_canid f id) /\
  forall env m,
    frame_of row env = Some m ->
    frame_of (<["ID" := Some (format_X id)]> row) env =
      Some (with_arbitration_id m id).
Proof.
  intros Hr.
  assert (Hr' : parse_row (<["ID" := Some (format_X id)]> row) =
                inr (with_canid f id)); [|split; [exact Hr'|]].
  2:{ intros env m Hm. unfold frame_of in *. rewrite Hr in Hm. rewrite Hr'.
      cbn [with_canid data_bytes canid is_extended].
      destruct (bytes (data_bytes f)); [discriminate|].
      destruct (send_raises env); [discriminate|]. now injection Hm as <-. }
  destruct (parse_row_inv row f Hr)
    as (c_ts & us & c_id & c_len & c_ext & H1 & H2 & Hf & H3 & H4 & H5 & H6
        & H7 & H8 & H9).
  assert (Hid : int 16 (Some (format_X id)) = inr id).
  { unfold int. now rewrite format_X_read_back. }
  rewrite (parse_row_after_header (<["ID" := Some (format_X id)]> row)
             c_ts us (Some (format_X id)) id c_len (dlc f) c_ext);
    try (rewrite lookup_insert_ne by discriminate; assumption);
    try assumption; [|apply lookup_insert_eq].
  rewrite (collect_agree row), H9.
  - unfold with_canid. now rewrite Hf, H8.
  - intros q _. apply lookup_insert_ne.
    destruct (data_key_not_header q) as (_ & N & _). congruence.
Qed.

Lemma X12_arbitration_id_not_range_checked_witness :
  parse_row row_a = inr fields_a /\
  format_X (-(2 ^ 40)) = "-10000000000" /\
  parse_row (<["ID" := Some "-10000000000"]> row_a) =
    inr (with_canid fields_a (-(2 ^ 40))).
Proof.
  assert (H : parse_row row_a = inr fields_a) by (vm_compute; reflexivity).
  split; [exact H|]. split; [vm_compute; reflexivity|].
  apply (X12_arbitration_id_not_range_checked row_a fields_a (-(2 ^ 40)) H).
Defined.

End Duration.

(** ** Letter case *)

Section LetterCase.
Import Py Replay Step StepFacts Samples Spec Log.

(** What [int] looks at in a character does not depend on its case. *)
Lemma lower_char_same c :
  isspace (lower_char c) = isspace c /\
  is_underscore (lower_char c) = is_underscore c /\
  digit_value (lower_char c) = digit_value c /\
  Ascii.eqb (lower_char c) "+" = Ascii.eqb c "+" /\
  Ascii.eqb (lower_char c) "-" = Ascii.eqb c "-" /\
  Ascii.eqb (lower_char c) "0" = Ascii.eqb c "0" /\
  Ascii.eqb (lower_char c) "x" || Ascii.eqb (lower_char c) "X" =
    Ascii.eqb c "x" || Ascii.eqb c "X".
Proof.
  destruct c as [[] [] [] [] [] [] [] []]; repeat split; reflexivity.
Qed.

Lemma lower_char_idem c : lower_char (lower_char c) = lower_char c.
Proof. destruct c as [[] [] [] [] [] [] [] []]; reflexivity. Qed.

Lemma lower_idem s : lower (lower s) = lower s.
Proof.
  induction s as [|c s IH]; [reflexivity|].
  cbn [lower]. now rewrite lower_char_idem, IH.
Qed.

Lemma lstrip_lower s : lstrip (lower s) = lower (lstrip s).
Proof.
  induction s as [|c s IH]; [reflexivity|].
  cbn [lower lstrip]. destruct (lower_char_same c) as (-> & _).
  now destruct (isspace c).
Qed.

Lemma scan_digits_lower base : forall s prev_us seen acc,
  scan_digits base prev_us seen acc (lower s) =
  match scan_digits base prev_us seen acc s with
  | Some (v, sn, rest) => Some (v, sn, lower rest)
  | None => None
  end.
Proof.
  induction s as [|c s IH]; intros prev_us seen acc.
  - cbn. now destruct prev_us.
  - cbn [lower scan_digits].
    destruct (lower_char_same c) as (_ & -> & -> & _).
    destruct (is_underscore c).
    + destruct prev_us; [reflexivity | apply IH].
    + destruct (digit_value c <? base)%N; [apply IH|].
      now destruct prev_us.
Qed.

(** The matches of [int] on a literal character, as tests. *)
Lemma skip_prefix_test base s :
  skip_prefix base s =
  match s with
  | String c (String x s') =>
      if Ascii.eqb c "0" && (base =? 16)%N &&
         (Ascii.eqb x "x" || Ascii.eqb x "X")
      then match s' with
           | String u s'' => if is_underscore u then s'' else s'
           | EmptyString => s'
           end
      else s
  | _ => s
  end.
Proof.
  destruct s as [|c [|x s']]; [reflexivity | apply skip_prefix_one |].
  destruct (Ascii.eqb x "x" || Ascii.eqb x "X") eqn:Hx.
  - destruct c as [[] [] [] [] [] [] [] []];
      try (unfold skip_prefix; now rewrite ?andb_false_r).
    unfold skip_prefix. rewrite Hx, andb_true_r. cbn [Ascii.eqb andb].
    change (Ascii.eqb "0" "0") with true. cbn [andb].
    destruct (base =? 16)%N; [|reflexivity].
    destruct s' as [|u s'']; [reflexivity|].
    destruct u as [[] [] [] [] [] [] [] []]; reflexivity.
  - rewrite skip_prefix_none by assumption. now rewrite andb_false_r.
Qed.

Lemma skip_prefix_lower base s :
  skip_prefix base (lower s) = lower (skip_prefix base s).
Proof.
  rewrite !skip_prefix_test.
  destruct s as [|c [|x s']]; [reflexivity | reflexivity |].
  cbn [lower].
  destruct (lower_char_same c) as (_ & _ & _ & _ & _ & -> & _).
  destruct (lower_char_same x) as (_ & _ & _ & _ & _ & _ & ->).
  destruct (Ascii.eqb c "0" && (base =? 16)%N &&
            (Ascii.eqb x "x" || Ascii.eqb x "X")); [|reflexivity].
  destruct s' as [|u s'']; [reflexivity|]. cbn [lower].
  destruct (lower_char_same u) as (_ & -> & _).
  now destruct (is_underscore u).
Qed.

Lemma unsigned_literal_test base s :
  unsigned_literal base s =
  let t := skip_prefix base s in
  let digits :=
    match scan_digits base false false 0%N t with
    | Some (v, true, rest) =>
        match lstrip rest with
        | EmptyString => Some v
        | _ => None
        end
    | _ => None
    end in
  match t with
  | String c _ => if is_underscore c then None else digits
  | EmptyString => digits
  end.
Proof.
  unfold unsigned_literal. cbv zeta.
  destruct (skip_prefix base s) as [|c t]; [reflexivity|].
  destruct c as [[] [] [] [] [] [] [] []]; reflexivity.
Qed.

Lemma unsigned_literal_lower base s :
  unsigned_literal base (lower s) = unsigned_literal base s.
Proof.
  rewrite !unsigned_literal_test. cbv zeta.
  rewrite skip_prefix_lower, scan_digits_lower.
  set (t := skip_prefix base s).
  assert (Hdigits :
    match
      match scan_digits base false false 0%N t with
      | Some (v, sn, rest) => Some (v, sn, lower rest)
      | None => None
      end
    with
    | Some (v, true, rest) =>
        match lstrip rest with
        | EmptyString => Some v
        | _ => None
        end
    | _ => None
    end =
    match scan_digits base false false 0%N t with
    | Some (v, true, rest) =>
        match lstrip rest with
        | EmptyString => Some v
        | _ => None
        end
    | _ => None
    end).
  { destruct (scan_digits base false false 0%N t) as [[[v [|]] rest]|];
      try reflexivity.
    rewrite lstrip_lower. now destruct (lstrip rest). }
  rewrite Hdigits. destruct t as [|c t']; [reflexivity|]. cbn [lower].
  now destruct (lower_char_same c) as (_ & -> & _).
Qed.

Lemma parse_int_test base s :
  parse_int base s =
  match lstrip s with
  | String c s' =>
      if Ascii.eqb c "+" then Z.of_N <$> unsigned_literal base s'
      else if Ascii.eqb c "-"
           then Z.opp <$> (Z.of_N <$> unsigned_literal base s')
           else Z.of_N <$> unsigned_literal base (String c s')
  | EmptyString => Z.of_N <$> unsigned_literal base EmptyString
  end.
Proof.
  unfold parse_int. destruct (lstrip s) as [|c s']; [reflexivity|].
  destruct c as [[] [] [] [] [] [] [] []]; reflexivity.
Qed.

(** [int] reads a text and the same text in lower case alike. *)
Lemma parse_int_lower base s : parse_int base (lower s) = parse_int base s.
Proof.
  rewrite !parse_int_test, lstrip_lower.
  destruct (lstrip s) as [|c s']; [reflexivity|]. cbn [lower].
  destruct (lower_char_same c) as (_ & _ & _ & -> & -> & _).
  rewrite unsigned_literal_lower.
  change (String (lower_char c) (lower s')) with (lower (String c s')).
  now rewrite unsigned_literal_lower.
Qed.

Lemma int_lower base cell v :
  int base cell = inr v -> int base (lower_cell cell) = inr v.
Proof.
  destruct cell as [s|]; [|discriminate]. unfold int, lower_cell.
  rewrite parse_int_lower. now destruct (parse_int base s).
Qed.

Lemma truthy_lower cell : truthy (lower_cell cell) = truthy cell.
Proof. now destruct cell as [[|c s]|]. Qed.

Lemma collect_lower row n : forall i acc l,
  collect row i n acc = inr l -> collect (lower_row row) i n acc = inr l.
Proof.
  induction n as [|n IH]; intros i acc l H; [exact H|].
  cbn [collect] in H |- *. unfold getitem, ebind in H |- *.
  unfold lower_row at 1. rewrite lookup_fmap.
  destruct (row !! ("D" ++ str_int i)) as [cell|]; [|discriminate].
  cbn [fmap option_fmap option_map]. rewrite truthy_lower.
  destruct (truthy cell).
  - destruct (int 16 cell) as [|b] eqn:Hb; [discriminate|].
    rewrite (int_lower _ _ _ Hb). now apply IH.
  - now apply IH.
Qed.

(** X13: letter case does not matter. A row that parses and the same
    row with every cell put in lower case parse to the same fields: the
    hexadecimal digits of the ID and of the data bytes, the [0x] prefix and
    the Extended flag are read without regard to case. *)
Theorem X13_letter_case_does_not_matter (row : Row) (f : Fields) :
  parse_row row = inr f -> parse_row (lower_row row) = inr f.
Proof.
  intros Hr.
  destruct (parse_row_inv row f Hr)
    as (c_ts & us & c_id & c_len & c_ext & H1 & H2 & Hf & H3 & H4 & H5 & H6
        & H7 & H8 & H9).
  rewrite (parse_row_after_header (lower_row row) (lower_cell c_ts) us
             (lower_cell c_id) (canid f) (lower_cell c_len) (dlc f)
             (lower c_ext));
    try (unfold lower_row; rewrite lookup_fmap;
         first [rewrite H1 | rewrite H3 | rewrite H5 | rewrite H7];
         reflexivity);
    try (now apply int_lower).
  rewrite (collect_lower _ _ _ _ _ H9), lower_idem.
  destruct f as [t c d x bs]. cbn in *. now subst.
Qed.

Lemma X13_letter_case_does_not_matter_witness :
  parse_row row_a = inr fields_a /\
  lower_row row_a !! "ID" = Some (Some "1a3") /\
  lower_row row_a !! "D3" = Some (Some "ff") /\
  lower_row row_a !! "Extended" = Some (Some "true") /\
  parse_row (lower_row row_a) = inr fields_a.
Proof.
  assert (H : parse_row row_a = inr fields_a) by (vm_compute; reflexivity).
  split; [exact H|]. repeat (split; [vm_compute; reflexivity|]).
  apply (X13_letter_case_does_not_matter row_a fields_a H).
Defined.

End LetterCase.

(** ** How long a sleep can be *)

Section SleepBound.
Import Py Replay Step StepFacts Samples Spec Log.

(** In a well-behaved world the baseline reading of the clock is never
    ahead of the clock. *)
Lemma start_time_before_clock rows : forall st,
  paired st -> Forall env_ok rows.*2 ->
  (forall t0, start_time st = Some t0 -> (t0 <= clock st)%Q) ->
  forall t0, start_time (run rows st) = Some t0 -> (t0 <= clock (run rows st))%Q.
Proof.
  induction rows as [|[row env] rows IH]; intros st Hp Hok Hinv; [exact Hinv|].
  cbn in Hok. apply Forall_cons in Hok as [Henv Hok]. cbn [run].
  apply IH; [now apply paired_round | exact Hok |].
  intros t0 Ht0.
  destruct (round_times row env st Hp Henv) as [Hmono _].
  destruct (start_ts st) as [s|] eqn:Hs.
  - assert (Hb := baseline_kept row env st ltac:(rewrite Hs; eauto)).
    unfold baseline in Hb. injection Hb as _ Hb. rewrite Hb in Ht0.
    specialize (Hinv t0 Ht0). lra.
  - destruct (parse_row row) as [e|f] eqn:Hr.
    + rewrite (round_malformed _ _ _ _ Hr) in Ht0. cbn in Ht0.
      destruct Hp as [Hp _]. rewrite (Hp Hs) in Ht0. discriminate.
    + destruct (round_first row env st f Hr Hs) as [_ Hb].
      unfold baseline in Hb. injection Hb as _ Hb. rewrite Hb in Ht0.
      injection Ht0 as <-.
      rewrite (clock_round _ _ _ Hp). unfold round_clock. rewrite Hr.
      cbv zeta. destruct Henv as (_ & Hnow & Hover & Hsend).
      assert (Hn : (clock st + before_start env <= now_of st env)%Q).
      { unfold now_of. rewrite Hs. lra. }
      assert (Hc1 : (now_of st env <=
                     clock_after_wait env (now_of st env)
                       (round_wait st env f))%Q).
      { unfold clock_after_wait. destruct (Qpositive _) eqn:Hw; [|lra].
        apply positive_wait in Hw. lra. }
      destruct (bytes (data_bytes f)); lra.
Qed.

(** X14: how long a sleep can be. In a world where the clock does not
    run backwards, the wait of a record is at most the capture time between
    the baseline record and it; a record stamped at or before the baseline
    record, as after a reset of the timestamps in the log, is never waited
    for. *)
Theorem X14_sleep_at_most_capture_offset
    (c0 : Q) (pre : list (Row * Env)) (row : Row) (env : Env) (f : Fields) :
  Forall env_ok ((pre ++ [(row, env)])%list).*2 ->
  parse_row row = inr f ->
  let st := run pre (initial c0) in
  exists s0 evs,
    start_ts (process_row row env st) = Some s0 /\
    trace (process_row row env st) = (trace st ++ evs)%list /\
    (forall w, Slept w ∈ evs -> (0 < w <= ts f - s0)%Q) /\
    ((ts f <= s0)%Q -> sleeps evs = []).
Proof.
  intros Hok Hr st.
  rewrite fmap_app, Forall_app in Hok. destruct Hok as [Hpre Henv].
  cbn in Henv. apply Forall_cons in Henv as [Henv _].
  assert (Hp : paired st) by apply paired_run, paired_initial.
  assert (Hinv : forall t0, start_time st = Some t0 -> (t0 <= clock st)%Q).
  { apply (start_time_before_clock pre (initial c0));
      [apply paired_initial | exact Hpre | discriminate]. }
  destruct (round_parsed row env st f Hp Hr)
    as (s0 & t0 & Hb & Hfirst & Hlater & Htr).
  cbv zeta in Htr. unfold baseline in Hb. injection Hb as Hs1 Ht1.
  assert (Hnow : (t0 <= now_of st env)%Q).
  { destruct Henv as (Hstart & Hlag & _). unfold now_of.
    destruct (start_ts st) as [s|] eqn:Hs.
    - specialize (Hlater ltac:(eauto)). unfold baseline in Hlater.
      injection Hlater as _ Ht. specialize (Hinv t0 Ht). lra.
    - destruct (Hfirst eq_refl) as [_ ->]. lra. }
  set (w := wait_time_of (ts f) s0 (now_of st env) t0) in *.
  assert (Hbound : forall w', Slept w' ∈ sleep_events w ->
                              (0 < w' <= ts f - s0)%Q).
  { intros w' Hin. unfold sleep_events in Hin.
    destruct (Qpositive w) eqn:Hw; [|now apply elem_of_nil in Hin].
    apply list_elem_of_singleton in Hin. injection Hin as ->.
    apply positive_wait in Hw. split; [exact Hw|].
    unfold w, wait_time_of. lra. }
  eexists s0, _. split; [exact Hs1|]. split; [exact Htr|]. split.
  - intros w' Hin. apply elem_of_app in Hin as [Hin|Hin]; [now apply Hbound|].
    now apply no_slept_in_outcome in Hin.
  - intros Hle. rewrite sleeps_app.
    replace (sleeps (outcome row env f _)) with (@nil Q)
      by (unfold outcome;
          now destruct (bytes (data_bytes f)), (send_raises env)).
    rewrite app_nil_r. unfold sleep_events.
    destruct (Qpositive w) eqn:Hw; [|reflexivity].
    apply positive_wait in Hw. unfold w, wait_time_of in Hw. lra.
Qed.

Lemma X14_sleep_at_most_capture_offset_witness :
  Forall env_ok (([(row_b, slow_send)] ++ [(row_a, calm)])%list).*2 /\
  parse_row row_a = inr fields_a /\
  exists s0 evs,
    start_ts (process_row row_a calm (run [(row_b, slow_send)] (initial 100)))
      = Some s0 /\
    trace (process_row row_a calm (run [(row_b, slow_send)] (initial 100))) =
      (trace (run [(row_b, slow_send)] (initial 100)) ++ evs)%list /\
    ((ts fields_a <= s0)%Q -> sleeps evs = []).
Proof.
  assert (H1 : Forall env_ok (([(row_b, slow_send)] ++ [(row_a, calm)])%list).*2)
    by (repeat constructor; vm_compute; discriminate).
  assert (H2 : parse_row row_a = inr fields_a) by (vm_compute; reflexivity).
  split; [exact H1|]. split; [exact H2|].
  destruct (X14_sleep_at_most_capture_offset 100 [(row_b, slow_send)] row_a
              calm fields_a H1 H2) as (s0 & evs & Ha & Hb & _ & Hc).
  exists s0, evs. repeat split; assumption.
Defined.

End SleepBound.
